(** * The ruby plugin of snapcraft (plugins/v2/ruby.py)

    A shallow embedding of [RubyPlugin]: the schema it publishes, the build
    packages and build environment it derives from its options, and the list
    of shell commands it assembles.

    Strings are [string], the set of packages is a [gset string], the
    environment is a [gmap string string], and the lists of options and of
    commands are [list string]. *)

From Stdlib Require Import Ascii.
From stdpp Require Import gmap strings list fin_maps.

(** ** Python helpers *)

(** [sep.join(l)] *)
Fixpoint join (sep : string) (l : list string) : string :=
  match l with
  | [] => ""
  | [x] => x
  | x :: rest => x +:+ sep +:+ join sep rest
  end.

(** [l.append(x)]: the list with [x] added at its end. *)
Definition append (l : list string) (x : string) : list string := l ++ [x].

(** Truth value of a list in a condition: a list is true when not empty. *)
Definition truthy {A} (l : list A) : bool :=
  match l with [] => false | _ :: _ => true end.

(** ** The options object

    [self.options] after the options were populated from the schema: one
    attribute per schema property, dashes replaced by underscores. *)
Record options := Options {
  ruby_flavor : string;
  ruby_version : string;
  ruby_use_bundler : bool;
  ruby_prefix : string;
  ruby_use_jemalloc : bool;
  ruby_shared : bool;
  ruby_configure_options : list string;
  ruby_gems : list string;
}.

(** The options every schema default gives. *)
Definition default_options : options :=
  {| ruby_flavor := "ruby";
     ruby_version := "3.0";
     ruby_use_bundler := false;
     ruby_prefix := "/usr";
     ruby_use_jemalloc := false;
     ruby_shared := false;
     ruby_configure_options := [];
     ruby_gems := [] |}.

(** ** The plugin's methods *)

Definition get_build_snaps (self : options) : gset string := ∅.

Definition get_build_packages (self : options) : gset string :=
  let packages : gset string := {["curl"]} in
  let packages :=
    if ruby_use_jemalloc self then packages ∪ {["libjemalloc-dev"]}
    else packages in
  packages.

Definition get_build_environment (self : options) : gmap string string :=
  let env : gmap string string :=
    {["PATH" := "${SNAPCRAFT_PART_INSTALL}" +:+ ruby_prefix self
                 +:+ "/bin:${PATH}"]} in
  let env :=
    if ruby_shared self
    then <["LD_LIBRARY_PATH" :=
             "${SNAPCRAFT_PART_INSTALL}" +:+ ruby_prefix self
             +:+ "/lib${LD_LIBRARY_PATH:+:$LD_LIBRARY_PATH}"]> env
    else env in
  env.

Definition _configure_opts (self : options) : list string :=
  let configure_opts :=
    [ "--without-baseruby";
      "--enable-load-relative";
      "--disable-install-doc" ] ++ ruby_configure_options self in
  let configure_opts :=
    if ruby_shared self then append configure_opts "--enable-shared"
    else configure_opts in
  let configure_opts :=
    if ruby_use_jemalloc self then append configure_opts "--with-jemalloc"
    else configure_opts in
  configure_opts.

Definition ruby_install_version : string := "0.8.5".

Definition ruby_install_checksum : string :=
  "SHA256 (ruby-install.tar.gz) = 793fcf44dce375c6c191003c3bfd22ebc85fa296d751808ab315872f5ee0179b".

Definition get_build_commands (self : options) : list string :=
  let configure_opts := join " " (_configure_opts self) in
  let commands := [] in
  let commands := append commands
    ("curl -L --proto '=https' --tlsv1.2 https://github.com/postmodern/ruby-install/archive/refs/tags/v"
       +:+ ruby_install_version +:+ ".tar.gz -o ruby-install.tar.gz") in
  let commands := append commands "echo 'Checksum of downloaded file:'" in
  let commands := append commands "sha256sum --tag ruby-install.tar.gz" in
  let commands := append commands "echo 'Checksum is correct if it matches:'" in
  let commands := append commands ("echo '" +:+ ruby_install_checksum +:+ "'") in
  let commands := append commands
    ("echo '" +:+ ruby_install_checksum +:+ "' | sha256sum --check --strict") in
  let commands := append commands "tar xfz ruby-install.tar.gz" in
  let commands := append commands
    ("ruby-install-" +:+ ruby_install_version
       +:+ "/bin/ruby-install --src-dir ${SNAPCRAFT_PART_SRC} --install-dir ${SNAPCRAFT_PART_INSTALL}"
       +:+ ruby_prefix self
       +:+ " --package-manager apt --jobs=${SNAPCRAFT_PARALLEL_BUILD_COUNT} "
       +:+ ruby_flavor self +:+ "-" +:+ ruby_version self
       +:+ " -- " +:+ configure_opts) in
  let commands := append commands
    ("rm -f ${SNAPCRAFT_PART_INSTALL}" +:+ ruby_prefix self
       +:+ "/bin/{bundle,bundler}") in
  let commands := append commands "gem install --env-shebang --no-document bundler" in
  let commands :=
    if ruby_use_bundler self then append commands "bundle" else commands in
  let commands :=
    if truthy (ruby_gems self)
    then append commands
           ("gem install --env-shebang --no-document " +:+ join " " (ruby_gems self))
    else commands in
  commands.


(** ** The schema

    A Python value as it occurs in the schema literal and in the raw
    properties of a part: [None], booleans, integers, strings, lists and
    dicts. A dict literal is an association list in the order written. *)
#[local] Set Warnings "-register-all".
Inductive value :=
| VNone
| VBool (b : bool)
| VInt (z : Z)
| VStr (s : string)
| VList (l : list value)
| VDict (d : list (string * value)).

Definition get_schema : value :=
  VDict [
    ("$schema", VStr "http://json-schema.org/draft-04/schema#");
    ("type", VStr "object");
    ("additionalProperties", VBool false);
    ("properties", VDict [
      ("ruby-flavor", VDict [
        ("type", VStr "string");
        ("default", VStr "ruby") ]);
      ("ruby-version", VDict [
        ("type", VStr "string");
        ("default", VStr "3.0");
        ("pattern", VStr "^\d+\.\d+(\.\d+)?$") ]);
      ("ruby-use-bundler", VDict [
        ("type", VStr "boolean");
        ("default", VBool false) ]);
      ("ruby-prefix", VDict [
        ("type", VStr "string");
        ("default", VStr "/usr") ]);
      ("ruby-use-jemalloc", VDict [
        ("type", VStr "boolean");
        ("default", VBool false) ]);
      ("ruby-shared", VDict [
        ("type", VStr "boolean");
        ("default", VBool false) ]);
      ("ruby-configure-options", VDict [
        ("type", VStr "array");
        ("items", VDict [("type", VStr "string")]);
        ("default", VList []) ]);
      ("ruby-gems", VDict [
        ("type", VStr "array");
        ("items", VDict [("type", VStr "string")]);
        ("default", VList []) ])
    ])
  ].

(** [d.get(k)] on a dict; [None] on anything else. *)
Fixpoint assoc (k : string) (d : list (string * value)) : option value :=
  match d with
  | [] => None
  | (k', v) :: rest => if String.eqb k' k then Some v else assoc k rest
  end.

Definition dict_get (k : string) (v : value) : option value :=
  match v with VDict d => assoc k d | _ => None end.

Definition dict_items (v : value) : list (string * value) :=
  match v with VDict d => d | _ => [] end.

(** The properties the schema declares, in the order written. *)
Definition schema_properties : list (string * value) :=
  from_option dict_items [] (dict_get "properties" get_schema).

(** The pattern the schema puts on ["ruby-version"]. *)
Definition version_pattern : option value :=
  dict_get "ruby-version" (VDict schema_properties) ≫= dict_get "pattern".

(** ** Regular expressions

    The part of Python's [re] syntax that the schema's pattern is written
    in: literal ASCII characters, [\d], escaped punctuation, [.], the
    anchors [^] and [$], groups, alternation and the postfix operators [?],
    [+], [*]. A pattern and its subject are Python [str]: sequences of code
    points, of which a [string] here holds the UTF-8 bytes. *)
Inductive regex :=
| Eps
| Bol
| Eol
| Digit
| AnyChar
| Chr (c : ascii)
| Seq (r1 r2 : regex)
| Alt (r1 r2 : regex)
| Opt (r : regex)
| Plus (r : regex)
| Star (r : regex).

Definition is_newline (c : ascii) : bool := Ascii.eqb c "010".

(** The bytes that are a character of their own in UTF-8. *)
Definition is_ascii (c : ascii) : bool := (N_of_ascii c <? 128)%N.

(** Characters with a meaning of their own in a pattern. *)
Definition is_special (c : ascii) : bool :=
  existsb (Ascii.eqb c)
    ["|"; "("; ")"; "?"; "+"; "*"; "["; "]"; "{"; "}"]%char.

(** The postfix operators after an atom. *)
Fixpoint parse_postfix (r : regex) (s : string) : regex * string :=
  match s with
  | String "?" s' => parse_postfix (Opt r) s'
  | String "+" s' => parse_postfix (Plus r) s'
  | String "*" s' => parse_postfix (Star r) s'
  | _ => (r, s)
  end.

(** Recursive descent over the pattern; [fuel] bounds the nesting, and the
    result is the expression read and the rest of the pattern. A pattern
    outside the syntax above is not parsed. *)
Fixpoint parse_alt (fuel : nat) (s : string) : option (regex * string) :=
  match fuel with
  | O => None
  | S fuel =>
    '(r1, s1) ← parse_seq fuel s;
    match s1 with
    | String "|" s2 => '(r2, s3) ← parse_alt fuel s2; Some (Alt r1 r2, s3)
    | _ => Some (r1, s1)
    end
  end
with parse_seq (fuel : nat) (s : string) : option (regex * string) :=
  match fuel with
  | O => None
  | S fuel =>
    match s with
    | "" | String "|" _ | String ")" _ => Some (Eps, s)
    | _ =>
      '(a, s1) ← parse_atom fuel s;
      let '(r1, s2) := parse_postfix a s1 in
      '(r2, s3) ← parse_seq fuel s2;
      Some (Seq r1 r2, s3)
    end
  end
with parse_atom (fuel : nat) (s : string) : option (regex * string) :=
  match fuel with
  | O => None
  | S fuel =>
    match s with
    | "" => None
    | String "(" s1 =>
      '(r, s2) ← parse_alt fuel s1;
      match s2 with String ")" s3 => Some (r, s3) | _ => None end
    | String "\" (String c s1) =>
      if Ascii.eqb c "d" then Some (Digit, s1)
      else if (Ascii.leb "0" c && Ascii.leb c "9") || Ascii.is_space c
      then None
      else if (Ascii.leb "A" c && Ascii.leb c "Z")
              || (Ascii.leb "a" c && Ascii.leb c "z") then None
      else if is_ascii c then Some (Chr c, s1)
      else None
    | String "\" "" => None
    | String "^" s1 => Some (Bol, s1)
    | String "$" s1 => Some (Eol, s1)
    | String "." s1 => Some (AnyChar, s1)
    | String c s1 =>
      if is_special c || negb (is_ascii c) then None else Some (Chr c, s1)
    end
  end.

(** [re.compile(pattern)] *)
Definition compile (pattern : string) : option regex :=
  match parse_alt (S (String.length pattern)) pattern with
  | Some (r, "") => Some r
  | _ => None
  end.

(** The payload of a continuation byte of UTF-8, [10xxxxxx]. *)
Definition continuation (c : ascii) : option N :=
  let n := N_of_ascii c in
  if ((128 <=? n) && (n <? 192))%N then Some (n - 128)%N else None.

(** The code points of a [str], from its UTF-8 bytes: one to four bytes for
    a code point, in the shortest form, no surrogates, at most [U+10FFFF].
    Bytes that are not UTF-8 are the bytes of no [str]. *)
Fixpoint utf8_decode (s : string) : option (list N) :=
  match s with
  | "" => Some []
  | String b0 s1 =>
    let n0 := N_of_ascii b0 in
    if (n0 <? 128)%N then cons n0 <$> utf8_decode s1
    else if (n0 <? 224)%N then
      match s1 with
      | String b1 s2 =>
        c1 ← continuation b1;
        let n := ((n0 - 192) * 64 + c1)%N in
        if ((192 <=? n0) && (128 <=? n))%N
        then cons n <$> utf8_decode s2 else None
      | _ => None
      end
    else if (n0 <? 240)%N then
      match s1 with
      | String b1 (String b2 s3) =>
        c1 ← continuation b1;
        c2 ← continuation b2;
        let n := ((n0 - 224) * 4096 + c1 * 64 + c2)%N in
        if ((2048 <=? n) && negb ((55296 <=? n) && (n <=? 57343)))%N
        then cons n <$> utf8_decode s3 else None
      | _ => None
      end
    else
      match s1 with
      | String b1 (String b2 (String b3 s4)) =>
        c1 ← continuation b1;
        c2 ← continuation b2;
        c3 ← continuation b3;
        let n := ((n0 - 240) * 262144 + c1 * 4096 + c2 * 64 + c3)%N in
        if ((n0 <? 248) && (65536 <=? n) && (n <=? 1114111))%N
        then cons n <$> utf8_decode s4 else None
      | _ => None
      end
  end.

(** Backtracking matcher over the code points of the subject. [decimal]
    is the class of [\d]: for a [str] pattern Python takes every Unicode
    decimal digit (the category [Nd] of its Unicode database), which has
    the ASCII digits and many more; the class is left open here. [bol]
    tells whether the position is the start of the subject, [s] is the
    subject from the position on, and [k] decides on what follows the
    match of [r]. [^] holds at the start only, [$] at the end and before a
    newline that ends the subject, [.] takes every character but a
    newline. A repetition goes on only after an iteration that consumed a
    character. *)
Fixpoint rmatch (decimal : N → bool) (r : regex) (bol : bool) (s : list N)
    (k : bool → list N → bool) : bool :=
  match r with
  | Eps => k bol s
  | Bol => bol && k bol s
  | Eol =>
    match s with
    | [] => k bol s
    | [n] => (n =? 10)%N && k bol s
    | _ => false
    end
  | Digit =>
    match s with n :: s' => decimal n && k false s' | [] => false end
  | AnyChar =>
    match s with
    | n :: s' => negb (n =? 10)%N && k false s'
    | [] => false
    end
  | Chr c =>
    match s with
    | n :: s' => (N_of_ascii c =? n)%N && k false s'
    | [] => false
    end
  | Seq r1 r2 =>
    rmatch decimal r1 bol s (λ bol' s', rmatch decimal r2 bol' s' k)
  | Alt r1 r2 => rmatch decimal r1 bol s k || rmatch decimal r2 bol s k
  | Opt r1 => rmatch decimal r1 bol s k || k bol s
  | Plus r1 =>
    (fix loop (n : nat) (bol : bool) (s : list N) : bool :=
       match n with
       | O => false
       | S n =>
         rmatch decimal r1 bol s (λ bol' s',
           k bol' s'
           || (bool_decide (length s' < length s) && loop n bol' s'))
       end) (S (length s)) bol s
  | Star r1 =>
    k bol s ||
    (fix loop (n : nat) (bol : bool) (s : list N) : bool :=
       match n with
       | O => false
       | S n =>
         rmatch decimal r1 bol s (λ bol' s',
           k bol' s'
           || (bool_decide (length s' < length s) && loop n bol' s'))
       end) (S (length s)) bol s
  end.

(** The suffixes of the subject, each with whether it starts the subject. *)
Fixpoint positions (bol : bool) (s : list N) : list (bool * list N) :=
  (bol, s) :: match s with [] => [] | _ :: s' => positions false s' end.

(** [re.search(pattern, s) is not None]: the pattern matches somewhere in
    the code points of [s]. A pattern that does not compile matches
    nothing. *)
Definition search (decimal : N → bool) (pattern s : string) : bool :=
  match compile pattern, utf8_decode s with
  | Some r, Some cs =>
    existsb (λ p, rmatch decimal r p.1 p.2 (λ _ _, true)) (positions true cs)
  | _, _ => false
  end.

(** The ASCII digits, which every class of [\d] holds. *)
Definition ascii_digit (n : N) : bool := ((48 <=? n) && (n <=? 57))%N.

(** ** Validation of the raw properties

    The plugin only publishes its schema; the check of a part's properties
    against it and the construction of [self.options] are done by the
    plugin loader. *)

Inductive error :=
| SchemaViolation (key : string) (constraint : string).

(** Modelled from the spec: the type named by a schema's ["type"], one of
    string, boolean and array for this schema, holds of a value of that
    kind and of no other. *)
Definition has_type (ty : string) (v : value) : bool :=
  match v with
  | VNone => String.eqb ty "null"
  | VBool _ => String.eqb ty "boolean"
  | VInt _ => String.eqb ty "integer" || String.eqb ty "number"
  | VStr _ => String.eqb ty "string"
  | VList _ => String.eqb ty "array"
  | VDict _ => String.eqb ty "object"
  end.

Definition check_type (sub v : value) : bool :=
  match dict_get "type" sub with
  | Some (VStr ty) => has_type ty v
  | _ => true
  end.

Definition check_items (sub v : value) : bool :=
  match v, dict_get "items" sub with
  | VList l, Some items => forallb (check_type items) l
  | _, _ => true
  end.

Definition check_pattern (decimal : N → bool) (sub v : value) : bool :=
  match v, dict_get "pattern" sub with
  | VStr s, Some (VStr pattern) => search decimal pattern s
  | _, _ => true
  end.

(** Modelled from the spec: the check of a present value against the schema
    of its key, type first (with the type of an array's items), then the
    pattern; the result names the constraint that is violated, if any. *)
Definition check_value (decimal : N → bool) (sub v : value)
    : option string :=
  if negb (check_type sub v) then Some "type"
  else if negb (check_items sub v) then Some "items"
  else if negb (check_pattern decimal sub v) then Some "pattern"
  else None.

(** The keys of the raw properties that the schema does not declare. *)
Definition unknown_keys (raw_options : gmap string value) : list string :=
  filter (λ key, assoc key schema_properties = None)
         (map_to_list raw_options).*1.

(** The first declared key whose value violates its schema. *)
Fixpoint first_violation (decimal : N → bool)
    (raw_options : gmap string value)
    (properties : list (string * value)) : option error :=
  match properties with
  | [] => None
  | (key, sub) :: rest =>
    match raw_options !! key ≫= check_value decimal sub with
    | Some constraint => Some (SchemaViolation key constraint)
    | None => first_violation decimal raw_options rest
    end
  end.

(** The value of a key: the one given, or else the schema's default. *)
Definition resolve (raw_options : gmap string value) (key : string)
    : option value :=
  match raw_options !! key with
  | Some v => Some v
  | None => assoc key schema_properties ≫= dict_get "default"
  end.

Definition as_str (v : value) : option string :=
  match v with VStr s => Some s | _ => None end.

Definition as_bool (v : value) : option bool :=
  match v with VBool b => Some b | _ => None end.

Definition as_strs (v : value) : option (list string) :=
  match v with VList l => mapM as_str l | _ => None end.

(** Modelled from the spec: the options object, one attribute per key of
    the schema, from the given values and the defaults. *)
Definition populate (raw_options : gmap string value) : option options :=
  flavor ← resolve raw_options "ruby-flavor" ≫= as_str;
  version ← resolve raw_options "ruby-version" ≫= as_str;
  use_bundler ← resolve raw_options "ruby-use-bundler" ≫= as_bool;
  prefix ← resolve raw_options "ruby-prefix" ≫= as_str;
  use_jemalloc ← resolve raw_options "ruby-use-jemalloc" ≫= as_bool;
  shared ← resolve raw_options "ruby-shared" ≫= as_bool;
  configure_options ← resolve raw_options "ruby-configure-options" ≫= as_strs;
  gems ← resolve raw_options "ruby-gems" ≫= as_strs;
  Some {| ruby_flavor := flavor;
          ruby_version := version;
          ruby_use_bundler := use_bundler;
          ruby_prefix := prefix;
          ruby_use_jemalloc := use_jemalloc;
          ruby_shared := shared;
          ruby_configure_options := configure_options;
          ruby_gems := gems |}.

(** Modelled from the spec: [validate], which the source leaves to the
    plugin loader. A key outside the schema is a violation (the schema
    sets ["additionalProperties"] to [False]); a key that is absent takes
    its default; a key that is present is checked for its type and, where
    the schema has one, its pattern, with [decimal] as the class of [\d];
    the result is the violation or the fully populated options. *)
Definition validate (decimal : N → bool) (raw_options : gmap string value)
    : error + options :=
  let closed :=
    match dict_get "additionalProperties" get_schema with
    | Some (VBool false) => true
    | _ => false
    end in
  match (if closed then unknown_keys raw_options else []) with
  | key :: _ => inl (SchemaViolation key "additionalProperties")
  | [] =>
    match first_violation decimal raw_options schema_properties with
    | Some e => inl e
    | None =>
      match populate raw_options with
      | Some o => inr o
      | None => inl (SchemaViolation "" "type")
      end
    end
  end.

(** ** The methods over a store of objects

    Python lists, sets and dicts are objects that are shared and updated in
    place. Here the methods run over a store: an object lives at an
    address, the list attributes of the options are addresses, [+] and the
    literals allocate, and [append], [add] and item assignment update the
    object at an address. A computation that uses an address with no
    object of the right kind has no result. *)
Module Store.

Inductive object :=
| OList (l : list string)
| OSet (s : gset string)
| ODict (d : gmap string string).

Abbreviation ref := nat (only parsing).
Abbreviation heap := (list object) (only parsing).

Definition M (A : Type) : Type := heap → option (A * heap).

#[global] Instance M_ret : MRet M := λ A x h, Some (x, h).
#[global] Instance M_bind : MBind M := λ A B f m h,
  match m h with
  | Some (x, h') => f x h'
  | None => None
  end.

(** A new object, at the first free address. *)
Definition alloc (o : object) : M ref := λ h, Some (length h, h ++ [o]).

Definition list_read (r : ref) : M (list string) := λ h,
  match h !! r with
  | Some (OList l) => Some (l, h)
  | _ => None
  end.

(** [r.append(x)] *)
Definition list_append (r : ref) (x : string) : M unit := λ h,
  match h !! r with
  | Some (OList l) => Some (tt, <[r := OList (l ++ [x])]> h)
  | _ => None
  end.

(** [l + r]: a new list, the operands are left as they are. *)
Definition list_concat (l : list string) (r : ref) : M ref :=
  l' ← list_read r; alloc (OList (l ++ l')).

(** [r.add(x)] *)
Definition set_add (r : ref) (x : string) : M unit := λ h,
  match h !! r with
  | Some (OSet s) => Some (tt, <[r := OSet (s ∪ {[x]})]> h)
  | _ => None
  end.

(** [r[key] = v] *)
Definition dict_set (r : ref) (key v : string) : M unit := λ h,
  match h !! r with
  | Some (ODict d) => Some (tt, <[r := ODict (<[key := v]> d)]> h)
  | _ => None
  end.

Definition when (b : bool) (c : M unit) : M unit :=
  if b then c else mret tt.

(** [self.options]: strings and booleans are immutable values, the two
    lists are addresses. *)
Record options := Options {
  ruby_flavor : string;
  ruby_version : string;
  ruby_use_bundler : bool;
  ruby_prefix : string;
  ruby_use_jemalloc : bool;
  ruby_shared : bool;
  ruby_configure_options : ref;
  ruby_gems : ref;
}.

Definition get_build_snaps (self : options) : M ref :=
  alloc (OSet ∅).

Definition get_build_packages (self : options) : M ref :=
  packages ← alloc (OSet {["curl"]});
  when (ruby_use_jemalloc self) (set_add packages "libjemalloc-dev");;
  mret packages.

Definition get_build_environment (self : options) : M ref :=
  env ← alloc (ODict
    {["PATH" := "${SNAPCRAFT_PART_INSTALL}" +:+ ruby_prefix self
                 +:+ "/bin:${PATH}"]});
  when (ruby_shared self)
    (dict_set env "LD_LIBRARY_PATH"
       ("${SNAPCRAFT_PART_INSTALL}" +:+ ruby_prefix self
          +:+ "/lib${LD_LIBRARY_PATH:+:$LD_LIBRARY_PATH}"));;
  mret env.

Definition _configure_opts (self : options) : M ref :=
  configure_opts ← list_concat
    [ "--without-baseruby";
      "--enable-load-relative";
      "--disable-install-doc" ] (ruby_configure_options self);
  when (ruby_shared self) (list_append configure_opts "--enable-shared");;
  when (ruby_use_jemalloc self) (list_append configure_opts "--with-jemalloc");;
  mret configure_opts.

Definition get_build_commands (self : options) : M ref :=
  opts ← _configure_opts self ≫= list_read;
  let configure_opts := join " " opts in
  commands ← alloc (OList []);
  list_append commands
    ("curl -L --proto '=https' --tlsv1.2 https://github.com/postmodern/ruby-install/archive/refs/tags/v"
       +:+ ruby_install_version +:+ ".tar.gz -o ruby-install.tar.gz");;
  list_append commands "echo 'Checksum of downloaded file:'";;
  list_append commands "sha256sum --tag ruby-install.tar.gz";;
  list_append commands "echo 'Checksum is correct if it matches:'";;
  list_append commands ("echo '" +:+ ruby_install_checksum +:+ "'");;
  list_append commands
    ("echo '" +:+ ruby_install_checksum +:+ "' | sha256sum --check --strict");;
  list_append commands "tar xfz ruby-install.tar.gz";;
  list_append commands
    ("ruby-install-" +:+ ruby_install_version
       +:+ "/bin/ruby-install --src-dir ${SNAPCRAFT_PART_SRC} --install-dir ${SNAPCRAFT_PART_INSTALL}"
       +:+ ruby_prefix self
       +:+ " --package-manager apt --jobs=${SNAPCRAFT_PARALLEL_BUILD_COUNT} "
       +:+ ruby_flavor self +:+ "-" +:+ ruby_version self
       +:+ " -- " +:+ configure_opts);;
  list_append commands
    ("rm -f ${SNAPCRAFT_PART_INSTALL}" +:+ ruby_prefix self
       +:+ "/bin/{bundle,bundler}");;
  list_append commands "gem install --env-shebang --no-document bundler";;
  when (ruby_use_bundler self) (list_append commands "bundle");;
  gems ← list_read (ruby_gems self);
  when (truthy gems)
    (gems ← list_read (ruby_gems self);
     list_append commands
       ("gem install --env-shebang --no-document " +:+ join " " gems));;
  mret commands.

End Store.

(** The options a plugin object stands for in a store: its attributes with
    the two lists read from their addresses. *)
Definition load (self : Store.options) (h : Store.heap) : option options :=
  match h !! Store.ruby_configure_options self, h !! Store.ruby_gems self with
  | Some (Store.OList configure_options), Some (Store.OList gems) =>
    Some {| ruby_flavor := Store.ruby_flavor self;
            ruby_version := Store.ruby_version self;
            ruby_use_bundler := Store.ruby_use_bundler self;
            ruby_prefix := Store.ruby_prefix self;
            ruby_use_jemalloc := Store.ruby_use_jemalloc self;
            ruby_shared := Store.ruby_shared self;
            ruby_configure_options := configure_options;
            ruby_gems := gems |}
  | _, _ => None
  end.

(** A store with the two lists of [o], and the plugin object over it. *)
Definition store_of (o : options) : Store.options * Store.heap :=
  ({| Store.ruby_flavor := ruby_flavor o;
      Store.ruby_version := ruby_version o;
      Store.ruby_use_bundler := ruby_use_bundler o;
      Store.ruby_prefix := ruby_prefix o;
      Store.ruby_use_jemalloc := ruby_use_jemalloc o;
      Store.ruby_shared := ruby_shared o;
      Store.ruby_configure_options := 0;
      Store.ruby_gems := 1 |},
   [Store.OList (ruby_configure_options o); Store.OList (ruby_gems o)]).

(** The object that a method returns when run in the store [h], with the
    store it leaves. *)
Definition result (m : Store.M Store.ref) (h : Store.heap)
    : option (Store.object * Store.heap) :=
  match m h with
  | Some (r, h') =>
    match h' !! r with Some obj => Some (obj, h') | None => None end
  | None => None
  end.

(** ** Names used in the statements *)

(** The ten commands that [get_build_commands] appends whatever the
    options: download, two labelled checksum displays, the checksum check,
    unpacking, the installer, and the two bundler commands. *)
Definition fixed_commands (self : options) : list string :=
  [ "curl -L --proto '=https' --tlsv1.2 https://github.com/postmodern/ruby-install/archive/refs/tags/v0.8.5.tar.gz -o ruby-install.tar.gz";
    "echo 'Checksum of downloaded file:'";
    "sha256sum --tag ruby-install.tar.gz";
    "echo 'Checksum is correct if it matches:'";
    "echo 'SHA256 (ruby-install.tar.gz) = 793fcf44dce375c6c191003c3bfd22ebc85fa296d751808ab315872f5ee0179b'";
    "echo 'SHA256 (ruby-install.tar.gz) = 793fcf44dce375c6c191003c3bfd22ebc85fa296d751808ab315872f5ee0179b' | sha256sum --check --strict";
    "tar xfz ruby-install.tar.gz";
    "ruby-install-0.8.5/bin/ruby-install --src-dir ${SNAPCRAFT_PART_SRC} --install-dir ${SNAPCRAFT_PART_INSTALL}"
      +:+ ruby_prefix self
      +:+ " --package-manager apt --jobs=${SNAPCRAFT_PARALLEL_BUILD_COUNT} "
      +:+ ruby_flavor self +:+ "-" +:+ ruby_version self
      +:+ " -- " +:+ join " " (_configure_opts self);
    "rm -f ${SNAPCRAFT_PART_INSTALL}" +:+ ruby_prefix self
      +:+ "/bin/{bundle,bundler}";
    "gem install --env-shebang --no-document bundler" ].

(** The command of the last, optional step, for a list of gems. *)
Definition gem_install (gems : list string) : string :=
  "gem install --env-shebang --no-document " +:+ join " " gems.

(** The options with another list of gems. *)
Definition with_gems (self : options) (gems : list string) : options :=
  {| ruby_flavor := ruby_flavor self;
     ruby_version := ruby_version self;
     ruby_use_bundler := ruby_use_bundler self;
     ruby_prefix := ruby_prefix self;
     ruby_use_jemalloc := ruby_use_jemalloc self;
     ruby_shared := ruby_shared self;
     ruby_configure_options := ruby_configure_options self;
     ruby_gems := gems |}.

(** The strings that the pattern of ["ruby-version"] is meant for: a major
    and a minor number, an optional patch number, each one or more digits
    of the class [decimal], separated by dots ([U+002E]). A newline
    ([U+000A]) at the end is let through, as [$] matches before it. *)
Definition digits (decimal : N → bool) (l : list N) : bool :=
  match l with [] => false | _ => forallb decimal l end.

Definition is_version (decimal : N → bool) (s : string) : Prop :=
  ∃ major minor rest nl,
    digits decimal major = true ∧ digits decimal minor = true
    ∧ (rest = [] ∨ ∃ patch, digits decimal patch = true
                            ∧ rest = 46%N :: patch)
    ∧ (nl = [] ∨ nl = [10%N])
    ∧ utf8_decode s = Some (major ++ 46%N :: minor ++ rest ++ nl).

(** The expression that the pattern of ["ruby-version"] compiles to. *)
Definition version_regex : regex :=
  Seq Bol (Seq (Plus Digit) (Seq (Chr ".") (Seq (Plus Digit)
    (Seq (Opt (Seq (Chr ".") (Seq (Plus Digit) Eps))) (Seq Eol Eps))))).

(** A run of one or more digits at the start of [s], followed by a rest
    that [k] accepts. *)
Fixpoint digit_run (decimal : N → bool) (s : list N)
    (k : list N → bool) : bool :=
  match s with
  | n :: s' => decimal n && (k s' || digit_run decimal s' k)
  | [] => false
  end.

(** Words: the strings that are not empty and have no white space (tab,
    newline, vertical tab, form feed, carriage return, space), which is
    where [String.words] splits a string. *)
Fixpoint no_space (s : string) : bool :=
  match s with
  | "" => true
  | String c s' => negb (Ascii.is_space c) && no_space s'
  end.

Definition is_word (s : string) : bool :=
  match s with "" => false | _ => no_space s end.

(** The strings that hold no newline: one line of a shell script. *)
Fixpoint no_newline (s : string) : bool :=
  match s with
  | "" => true
  | String c s' => negb (is_newline c) && no_newline s'
  end.

(** * Properties *)

(** ** Build snaps, build packages, build environment *)

(** C10: whatever the options, [get_build_snaps] is the empty set: the
    plugin asks for no build snap. *)
Theorem get_build_snaps_empty (self : options) :
  get_build_snaps self = ∅.
Proof. reflexivity. Qed.

Lemma get_build_packages_eq (self : options) :
  get_build_packages self =
    if ruby_use_jemalloc self then {["curl"; "libjemalloc-dev"]} else {["curl"]}.
Proof. unfold get_build_packages. by destruct (ruby_use_jemalloc self). Qed.

(** C4: the build packages hold ["libjemalloc-dev"] exactly when
    [ruby_use_jemalloc] is set, and hold ["curl"] whatever the options;
    nothing else is in the set. *)
Theorem get_build_packages_members (self : options) :
  "curl" ∈ get_build_packages self
  ∧ ("libjemalloc-dev" ∈ get_build_packages self ↔ ruby_use_jemalloc self = true)
  ∧ get_build_packages self ⊆ {["curl"; "libjemalloc-dev"]}.
Proof.
  rewrite get_build_packages_eq.
  destruct (ruby_use_jemalloc self); set_solver.
Qed.

(** C5: the build environment has an [LD_LIBRARY_PATH] entry exactly when
    [ruby_shared] is set; its value is the [lib] directory under the
    install root and the prefix, followed by the inherited value behind a
    [:+] guard, which expands to nothing when that value is unset or
    empty. The [PATH] entry is there whatever the options: the [bin]
    directory under the install root and the prefix, ahead of the
    inherited [PATH]. *)
Theorem get_build_environment_entries (self : options) :
  let env := get_build_environment self in
  env !! "PATH" =
    Some ("${SNAPCRAFT_PART_INSTALL}" +:+ ruby_prefix self +:+ "/bin:${PATH}")
  ∧ env !! "LD_LIBRARY_PATH" =
      (if ruby_shared self
       then Some ("${SNAPCRAFT_PART_INSTALL}" +:+ ruby_prefix self
                    +:+ "/lib${LD_LIBRARY_PATH:+:$LD_LIBRARY_PATH}")
       else None)
  ∧ (is_Some (env !! "LD_LIBRARY_PATH") ↔ ruby_shared self = true)
  ∧ dom env =
      (if ruby_shared self then {["PATH"; "LD_LIBRARY_PATH"]} else {["PATH"]}).
Proof.
  unfold get_build_environment.
  destruct (ruby_shared self); cbv zeta.
  - rewrite lookup_insert_ne by done.
    rewrite lookup_singleton_eq, lookup_insert_eq.
    rewrite dom_insert_L, dom_singleton_L.
    repeat split; eauto; set_solver.
  - rewrite lookup_singleton_eq, lookup_singleton_ne by done.
    rewrite dom_singleton_L.
    repeat split; try done; by intros [? ?].
Qed.

(** ** The configure options *)

Lemma _configure_opts_eq (self : options) :
  _configure_opts self =
    ["--without-baseruby"; "--enable-load-relative"; "--disable-install-doc"]
    ++ ruby_configure_options self
    ++ (if ruby_shared self then ["--enable-shared"] else [])
    ++ (if ruby_use_jemalloc self then ["--with-jemalloc"] else []).
Proof.
  unfold _configure_opts, append.
  destruct (ruby_shared self), (ruby_use_jemalloc self); cbv zeta;
    rewrite <- ?(assoc_L (++)), ?app_nil_r; reflexivity.
Qed.

Lemma get_build_commands_eq (self : options) :
  get_build_commands self =
    fixed_commands self
    ++ (if ruby_use_bundler self then ["bundle"] else [])
    ++ (if truthy (ruby_gems self) then [gem_install (ruby_gems self)] else []).
Proof.
  unfold get_build_commands, append.
  destruct (ruby_use_bundler self), (truthy (ruby_gems self)); reflexivity.
Qed.

Lemma fixed_commands_length (self : options) :
  length (fixed_commands self) = 10.
Proof. reflexivity. Qed.

(** C2: the configure options are the three baseline flags, then the
    caller's [ruby_configure_options] in their order, then
    [--enable-shared] exactly when [ruby_shared] is set, then
    [--with-jemalloc] exactly when [ruby_use_jemalloc] is set. The two
    conditional flags thus come after every baseline and caller-supplied
    flag, and the installer command passes the list, joined by spaces,
    after its [--] separator. *)
Theorem _configure_opts_layout (self : options) :
  let baseline :=
    ["--without-baseruby"; "--enable-load-relative"; "--disable-install-doc"] in
  let conditional :=
    (if ruby_shared self then ["--enable-shared"] else [])
    ++ (if ruby_use_jemalloc self then ["--with-jemalloc"] else []) in
  let n := 3 + length (ruby_configure_options self) in
  _configure_opts self = baseline ++ ruby_configure_options self ++ conditional
  ∧ take n (_configure_opts self) = baseline ++ ruby_configure_options self
  ∧ drop n (_configure_opts self) = conditional
  ∧ get_build_commands self !! 7 =
      Some ("ruby-install-0.8.5/bin/ruby-install --src-dir ${SNAPCRAFT_PART_SRC} --install-dir ${SNAPCRAFT_PART_INSTALL}"
              +:+ ruby_prefix self
              +:+ " --package-manager apt --jobs=${SNAPCRAFT_PARALLEL_BUILD_COUNT} "
              +:+ ruby_flavor self +:+ "-" +:+ ruby_version self +:+ " -- "
              +:+ join " " (baseline ++ ruby_configure_options self ++ conditional)).
Proof.
  intros baseline conditional n.
  assert (Heq : _configure_opts self
                = (baseline ++ ruby_configure_options self) ++ conditional).
  { rewrite _configure_opts_eq. subst baseline conditional.
    by rewrite <- (assoc_L (++)). }
  assert (Hn : n = length (baseline ++ ruby_configure_options self)).
  { subst n baseline. by rewrite length_app. }
  repeat split.
  - by rewrite Heq, <- (assoc_L (++)).
  - by rewrite Heq, Hn, take_app_length.
  - by rewrite Heq, Hn, drop_app_length.
  - rewrite get_build_commands_eq. unfold fixed_commands.
    rewrite Heq, <- (assoc_L (++)). reflexivity.
Qed.

(** ** The plan *)

(** The plan for the default options does not have 8 commands. *)
Lemma default_plan_not_eight_commands :
  ¬ (length (get_build_commands default_options) = 8).
Proof. vm_compute. discriminate. Qed.

(** C1, as the code has it: the default options are the defaults of the
    schema, in its order; for them the build packages are exactly ["curl"],
    the build environment is the single [PATH] entry, and the plan is these
    10 commands, in this order: download, label of the actual checksum,
    actual checksum, label of the expected checksum, expected checksum,
    checksum check, unpack, installer, removal of the bundler executables,
    installation of bundler; no optional step. *)
Theorem default_options_end_to_end :
  (λ p, dict_get "default" p.2) <$> schema_properties =
    [ Some (VStr (ruby_flavor default_options));
      Some (VStr (ruby_version default_options));
      Some (VBool (ruby_use_bundler default_options));
      Some (VStr (ruby_prefix default_options));
      Some (VBool (ruby_use_jemalloc default_options));
      Some (VBool (ruby_shared default_options));
      Some (VList (VStr <$> ruby_configure_options default_options));
      Some (VList (VStr <$> ruby_gems default_options)) ]
  ∧ get_build_packages default_options = {["curl"]}
  ∧ get_build_environment default_options =
      {["PATH" := "${SNAPCRAFT_PART_INSTALL}/usr/bin:${PATH}"]}
  ∧ size (get_build_environment default_options) = 1
  ∧ length (get_build_commands default_options) = 10
  ∧ get_build_commands default_options =
      [ "curl -L --proto '=https' --tlsv1.2 https://github.com/postmodern/ruby-install/archive/refs/tags/v0.8.5.tar.gz -o ruby-install.tar.gz";
        "echo 'Checksum of downloaded file:'";
        "sha256sum --tag ruby-install.tar.gz";
        "echo 'Checksum is correct if it matches:'";
        "echo 'SHA256 (ruby-install.tar.gz) = 793fcf44dce375c6c191003c3bfd22ebc85fa296d751808ab315872f5ee0179b'";
        "echo 'SHA256 (ruby-install.tar.gz) = 793fcf44dce375c6c191003c3bfd22ebc85fa296d751808ab315872f5ee0179b' | sha256sum --check --strict";
        "tar xfz ruby-install.tar.gz";
        "ruby-install-0.8.5/bin/ruby-install --src-dir ${SNAPCRAFT_PART_SRC} --install-dir ${SNAPCRAFT_PART_INSTALL}/usr --package-manager apt --jobs=${SNAPCRAFT_PARALLEL_BUILD_COUNT} ruby-3.0 -- --without-baseruby --enable-load-relative --disable-install-doc";
        "rm -f ${SNAPCRAFT_PART_INSTALL}/usr/bin/{bundle,bundler}";
        "gem install --env-shebang --no-document bundler" ].
Proof.
  repeat split.
Qed.

(** C9: whatever the options, the plan has at its indexes 8 and 9 the
    command that removes the [bundle] and [bundler] executables under the
    install root and prefix, and right after it the command that installs
    the bundler gem with [--env-shebang] and [--no-document]. *)
Theorem get_build_commands_bootstrap (self : options) :
  get_build_commands self !! 8 =
    Some ("rm -f ${SNAPCRAFT_PART_INSTALL}" +:+ ruby_prefix self
            +:+ "/bin/{bundle,bundler}")
  ∧ get_build_commands self !! 9 =
      Some "gem install --env-shebang --no-document bundler".
Proof. rewrite get_build_commands_eq. split; reflexivity. Qed.

Lemma fixed_commands_not_bundle (self : options) :
  "bundle" ∉ fixed_commands self.
Proof.
  unfold fixed_commands. rewrite !not_elem_of_cons.
  repeat split; try discriminate; apply not_elem_of_nil.
Qed.

Lemma gem_install_not_bundle (gems : list string) :
  gem_install gems ≠ "bundle".
Proof. discriminate. Qed.

(** C3: without [ruby_use_bundler] no command of the plan is [bundle];
    with it, [bundle] is the command at index 10 and occurs nowhere else,
    the two bundler bootstrap commands are right before it at indexes 8
    and 9, and what follows it is the command that installs the gems, if
    there are any, and nothing otherwise. *)
Theorem get_build_commands_bundle (self : options) :
  let commands := get_build_commands self in
  if ruby_use_bundler self
  then commands !! 10 = Some "bundle"
       ∧ ("bundle" ∉ take 10 commands)
       ∧ ("bundle" ∉ drop 11 commands)
       ∧ commands !! 8 =
           Some ("rm -f ${SNAPCRAFT_PART_INSTALL}" +:+ ruby_prefix self
                   +:+ "/bin/{bundle,bundler}")
       ∧ commands !! 9 = Some "gem install --env-shebang --no-document bundler"
       ∧ drop 11 commands =
           (if truthy (ruby_gems self)
            then ["gem install --env-shebang --no-document "
                    +:+ join " " (ruby_gems self)]
            else [])
  else "bundle" ∉ commands.
Proof.
  intros commands. subst commands. rewrite get_build_commands_eq.
  pose proof (fixed_commands_not_bundle self) as Hfixed.
  pose proof (gem_install_not_bundle (ruby_gems self)) as Hgem.
  destruct (ruby_use_bundler self).
  - change (take 10 _) with (fixed_commands self).
    change (drop 11 _) with
      (if truthy (ruby_gems self) then [gem_install (ruby_gems self)] else []).
    repeat split; try done.
    destruct (truthy (ruby_gems self)); [|apply not_elem_of_nil].
    rewrite not_elem_of_cons. split; [done|apply not_elem_of_nil].
  - rewrite !not_elem_of_app. repeat split; [done|apply not_elem_of_nil|].
    destruct (truthy (ruby_gems self)); [|apply not_elem_of_nil].
    rewrite not_elem_of_cons. split; [done|apply not_elem_of_nil].
Qed.

Lemma join_space_bundler (gems : list string) :
  join " " gems = "bundler" → gems = ["bundler"].
Proof.
  destruct gems as [|x [|y rest]]; [discriminate| |].
  { cbn [join]. by intros ->. }
  cbn [join]. intros H. exfalso.
  do 7 (destruct x as [|? x]; [discriminate H|injection H as _ H]).
  destruct x; discriminate H.
Qed.

Lemma gem_install_in_fixed (self : options) (gems : list string) (i : nat) :
  fixed_commands self !! i = Some (gem_install gems) →
  i = 9 ∧ gems = ["bundler"].
Proof.
  unfold fixed_commands, gem_install. intros H.
  do 9 (destruct i as [|i]; [discriminate H|]).
  destruct i as [|i]; [|by destruct i].
  split; [done|]. apply join_space_bundler.
  injection H as H. exact (eq_sym H).
Qed.

(** With ["bundler"] as the only gem, the command that installs the gems
    is in the plan twice: as the bootstrap command and as the last one. *)
Lemma gems_bundler_installed_twice :
  let self := with_gems default_options ["bundler"] in
  let cmd := "gem install --env-shebang --no-document "
               +:+ join " " (ruby_gems self) in
  ruby_gems self ≠ []
  ∧ get_build_commands self !! 9 = Some cmd
  ∧ get_build_commands self !! 10 = Some cmd
  ∧ length (filter (λ c, c = cmd) (get_build_commands self)) = 2.
Proof. repeat split. discriminate. Qed.

(** C7, as the code has it. Let [n] be the number of commands before the
    last, optional step (10, or 11 with [ruby_use_bundler]). These [n]
    commands are the plan for the same options without gems. With a list of
    gems that is not empty, one command follows them: the installation of
    the gems, names joined by spaces in the caller's order. With an empty
    list nothing follows. Among the first [n] commands, the installation
    command of the gems occurs only when the list is exactly ["bundler"],
    as the bootstrap command at index 9. *)
Theorem get_build_commands_gems (self : options) :
  let commands := get_build_commands self in
  let n := if ruby_use_bundler self then 11 else 10 in
  let cmd := "gem install --env-shebang --no-document "
               +:+ join " " (ruby_gems self) in
  take n commands = get_build_commands (with_gems self [])
  ∧ drop n commands = (if truthy (ruby_gems self) then [cmd] else [])
  ∧ (truthy (ruby_gems self) = false ↔ ruby_gems self = [])
  ∧ (∀ i, i < n → commands !! i = Some cmd →
          i = 9 ∧ ruby_gems self = ["bundler"]).
Proof.
  intros commands n cmd. subst commands n.
  rewrite !get_build_commands_eq.
  change (fixed_commands (with_gems self [])) with (fixed_commands self).
  change (ruby_use_bundler (with_gems self [])) with (ruby_use_bundler self).
  change (truthy (ruby_gems (with_gems self []))) with false.
  fold (gem_install (ruby_gems self)) in cmd. subst cmd.
  split; [|split; [|split]].
  - by destruct (ruby_use_bundler self).
  - by destruct (ruby_use_bundler self).
  - by destruct (ruby_gems self).
  - intros i Hi Hcmd.
    destruct (decide (i < 10)) as [Hlt|Hge].
    + rewrite lookup_app_l in Hcmd by (by rewrite fixed_commands_length).
      by apply (gem_install_in_fixed self).
    + destruct (ruby_use_bundler self); [|lia].
      assert (i = 10) as -> by lia.
      discriminate Hcmd.
Qed.

Lemma get_build_commands_gems_witness :
  9 = 9 ∧ ruby_gems (with_gems default_options ["bundler"]) = ["bundler"].
Proof.
  apply (get_build_commands_gems (with_gems default_options ["bundler"]));
    [vm_compute; lia | reflexivity].
Defined.

(** ** The schema and the validation against it *)

Lemma assoc_None (k : string) (d : list (string * value)) :
  assoc k d = None ↔ k ∉ d.*1.
Proof.
  induction d as [|[k' v] d IH]; cbn [assoc fmap list_fmap fst].
  - split; [intros _; apply not_elem_of_nil|done].
  - rewrite not_elem_of_cons.
    destruct (String.eqb_spec k' k) as [->|Hne].
    + split; [done|]. by intros [? _].
    + rewrite IH. split; [by split|by intros [_ ?]].
Qed.

Lemma unknown_keys_insert (raw_options : gmap string value)
    (key : string) (v : value) :
  key ∉ schema_properties.*1 →
  key ∈ unknown_keys (<[key := v]> raw_options).
Proof.
  intros Hkey. unfold unknown_keys.
  apply list_elem_of_filter. split; [by apply assoc_None|].
  apply list_elem_of_fmap. exists (key, v). split; [done|].
  apply elem_of_map_to_list, lookup_insert_eq.
Qed.

Lemma first_violation_elem (decimal : N → bool)
    (raw_options : gmap string value)
    (properties : list (string * value)) (key constraint : string)
    (sub : value) :
  (key, sub) ∈ properties →
  raw_options !! key ≫= check_value decimal sub = Some constraint →
  is_Some (first_violation decimal raw_options properties).
Proof.
  intros Hin Hcheck.
  induction properties as [|[key' sub'] rest IH]; [by apply elem_of_nil in Hin|].
  cbn [first_violation].
  destruct (raw_options !! key' ≫= check_value decimal sub') eqn:E; [done|].
  apply elem_of_cons in Hin as [[= <- <-]|Hin]; [congruence|auto].
Qed.

Lemma validate_unknown_key (decimal : N → bool)
    (raw_options : gmap string value) (key : string) :
  key ∈ unknown_keys raw_options →
  ∃ key' constraint,
    validate decimal raw_options = inl (SchemaViolation key' constraint).
Proof.
  intros Hin. unfold validate. cbn [dict_get get_schema assoc String.eqb].
  change (assoc "additionalProperties" _) with (Some (VBool false)).
  cbv iota beta zeta.
  destruct (unknown_keys raw_options) as [|key' rest]; [by apply elem_of_nil in Hin|].
  eauto.
Qed.

Lemma validate_violation (decimal : N → bool)
    (raw_options : gmap string value)
    (key constraint : string) (sub : value) :
  (key, sub) ∈ schema_properties →
  raw_options !! key ≫= check_value decimal sub = Some constraint →
  ∃ key' constraint',
    validate decimal raw_options = inl (SchemaViolation key' constraint').
Proof.
  intros Hin Hcheck. unfold validate.
  lazymatch goal with
  | |- context [match ?l with [] => _ | _ :: _ => _ end] =>
    destruct l as [|key' rest]; [|eauto]
  end.
  destruct (first_violation_elem _ _ _ _ _ _ Hin Hcheck) as [[key' c] ->].
  eauto.
Qed.

Lemma check_value_version (decimal : N → bool) (s : string) :
  check_value decimal
    (VDict [("type", VStr "string"); ("default", VStr "3.0");
            ("pattern", VStr "^\d+\.\d+(\.\d+)?$")])
    (VStr s)
  = if search decimal "^\d+\.\d+(\.\d+)?$" s then None else Some "pattern".
Proof.
  unfold check_value, check_type, check_items, check_pattern.
  cbn [dict_get assoc String.eqb Ascii.eqb Bool.eqb has_type negb].
  by destruct (search _ _ s).
Qed.

Lemma first_violation_None (decimal : N → bool)
    (raw_options : gmap string value)
    (properties : list (string * value)) (key : string) (sub : value) :
  first_violation decimal raw_options properties = None →
  (key, sub) ∈ properties →
  raw_options !! key ≫= check_value decimal sub = None.
Proof.
  induction properties as [|[key' sub'] rest IH]; intros Hnone Hin;
    [by apply elem_of_nil in Hin|].
  cbn [first_violation] in Hnone.
  destruct (raw_options !! key' ≫= check_value decimal sub') eqn:E; [done|].
  apply elem_of_cons in Hin as [[= -> ->]|Hin]; auto.
Qed.

Lemma check_value_type (decimal : N → bool) (sub v : value) :
  check_value decimal sub v = None →
  check_type sub v = true ∧ check_items sub v = true.
Proof.
  unfold check_value.
  destruct (check_type sub v); [|done].
  by destruct (check_items sub v).
Qed.

Lemma mapM_as_str (l : list value) :
  forallb (has_type "string") l = true → is_Some (mapM as_str l).
Proof.
  induction l as [|v l IH]; [by eexists|].
  cbn [forallb]. intros [Hv Hl]%andb_prop.
  destruct (IH Hl) as [l' Hl'].
  destruct v; try discriminate Hv.
  exists (s :: l'). cbn. by rewrite Hl'.
Qed.

Lemma resolve_checked {A} (decimal : N → bool)
    (raw_options : gmap string value) (i : nat)
    (key : string) (sub : value) (conv : value → option A) :
  first_violation decimal raw_options schema_properties = None →
  schema_properties !! i = Some (key, sub) →
  is_Some ((assoc key schema_properties ≫= dict_get "default") ≫= conv) →
  (∀ v, check_type sub v = true → check_items sub v = true →
        is_Some (conv v)) →
  is_Some (resolve raw_options key ≫= conv).
Proof.
  intros Hnone.
  intros Hi Hdef Hconv. unfold resolve.
  destruct (raw_options !! key) as [v|] eqn:E; [|exact Hdef].
  pose proof (first_violation_None _ _ _ _ _ Hnone
                (list_elem_of_lookup_2 _ _ _ Hi)) as H.
  rewrite E in H. apply check_value_type in H as [Ht Hit].
  by apply Hconv.
Qed.

Lemma as_str_checked (sub : value) :
  dict_get "type" sub = Some (VStr "string") →
  ∀ v, check_type sub v = true → check_items sub v = true →
       is_Some (as_str v).
Proof.
  unfold check_type. intros -> v Ht _.
  destruct v; try discriminate Ht. by eexists.
Qed.

Lemma as_bool_checked (sub : value) :
  dict_get "type" sub = Some (VStr "boolean") →
  ∀ v, check_type sub v = true → check_items sub v = true →
       is_Some (as_bool v).
Proof.
  unfold check_type. intros -> v Ht _.
  destruct v; try discriminate Ht. by eexists.
Qed.

Lemma as_strs_checked (sub : value) :
  dict_get "type" sub = Some (VStr "array") →
  dict_get "items" sub = Some (VDict [("type", VStr "string")]) →
  ∀ v, check_type sub v = true → check_items sub v = true →
       is_Some (as_strs v).
Proof.
  unfold check_type, check_items. intros -> -> v Ht Hit.
  destruct v; try discriminate Ht. by apply mapM_as_str.
Qed.

Lemma populate_total (decimal : N → bool) (raw_options : gmap string value) :
  first_violation decimal raw_options schema_properties = None →
  is_Some (populate raw_options).
Proof.
  intros Hnone. unfold populate.
  destruct (resolve_checked decimal raw_options 0 _ _ as_str Hnone eq_refl)
    as [flavor ->]; [by eexists|by apply as_str_checked|].
  destruct (resolve_checked decimal raw_options 1 _ _ as_str Hnone eq_refl)
    as [version ->]; [by eexists|by apply as_str_checked|].
  destruct (resolve_checked decimal raw_options 2 _ _ as_bool Hnone eq_refl)
    as [use_bundler ->]; [by eexists|by apply as_bool_checked|].
  destruct (resolve_checked decimal raw_options 3 _ _ as_str Hnone eq_refl)
    as [prefix ->]; [by eexists|by apply as_str_checked|].
  destruct (resolve_checked decimal raw_options 4 _ _ as_bool Hnone eq_refl)
    as [use_jemalloc ->]; [by eexists|by apply as_bool_checked|].
  destruct (resolve_checked decimal raw_options 5 _ _ as_bool Hnone eq_refl)
    as [shared ->]; [by eexists|by apply as_bool_checked|].
  destruct (resolve_checked decimal raw_options 6 _ _ as_strs Hnone eq_refl)
    as [configure_options ->]; [by eexists|by apply as_strs_checked|].
  destruct (resolve_checked decimal raw_options 7 _ _ as_strs Hnone eq_refl)
    as [gems ->]; [by eexists|by apply as_strs_checked|].
  by eexists.
Qed.

Lemma first_violation_Some (decimal : N → bool)
    (raw_options : gmap string value)
    (properties : list (string * value)) (key constraint : string) :
  first_violation decimal raw_options properties
    = Some (SchemaViolation key constraint) →
  ∃ sub, (key, sub) ∈ properties
         ∧ raw_options !! key ≫= check_value decimal sub = Some constraint.
Proof.
  induction properties as [|[key' sub'] rest IH]; [done|].
  cbn [first_violation].
  destruct (raw_options !! key' ≫= check_value decimal sub') as [c|] eqn:E.
  - intros [= -> ->]. exists sub'. split; [apply elem_of_cons; by left|done].
  - intros (sub & Hin & Hc)%IH. exists sub. split; [|done].
    apply elem_of_cons. by right.
Qed.

(** A violation names a key outside the schema, or a key of the schema
    with the constraint that its value violates; without a violation the
    options are populated. *)
Lemma validate_cases (decimal : N → bool) (raw_options : gmap string value) :
  match validate decimal raw_options with
  | inl (SchemaViolation key constraint) =>
    (key ∈ unknown_keys raw_options ∧ constraint = "additionalProperties")
    ∨ (∃ sub, (key, sub) ∈ schema_properties
              ∧ raw_options !! key ≫= check_value decimal sub
                = Some constraint)
  | inr o =>
    unknown_keys raw_options = []
    ∧ first_violation decimal raw_options schema_properties = None
    ∧ populate raw_options = Some o
  end.
Proof.
  unfold validate.
  change (dict_get "additionalProperties" get_schema) with (Some (VBool false)).
  cbv beta iota zeta.
  destruct (unknown_keys raw_options) as [|key rest].
  - destruct (first_violation decimal raw_options schema_properties)
      as [[key c]|] eqn:E.
    + right. by apply first_violation_Some.
    + destruct (populate_total _ _ E) as [o ->]. done.
  - left. split; [apply elem_of_cons; by left|done].
Qed.

(** *** The pattern of the version *)

Lemma compile_version_pattern :
  compile "^\d+\.\d+(\.\d+)?$" = Some version_regex.
Proof. reflexivity. Qed.

Lemma plus_digit_loop (decimal : N → bool) (n : nat) (bol : bool)
    (s : list N) (k : bool → list N → bool) :
  length s < n →
  (fix loop (n : nat) (bol : bool) (s : list N) : bool :=
     match n with
     | O => false
     | S n =>
       rmatch decimal Digit bol s (λ bol' s',
         k bol' s'
         || (bool_decide (length s' < length s) && loop n bol' s'))
     end) n bol s
  = digit_run decimal s (k false).
Proof.
  revert bol s. induction n as [|n IH]; intros bol s Hn.
  { by apply Nat.nlt_0_r in Hn. }
  destruct s as [|c s]; [done|].
  cbn [rmatch digit_run length] in *. f_equal. f_equal.
  rewrite bool_decide_eq_true_2 by lia.
  cbn [andb]. apply IH. lia.
Qed.

Lemma rmatch_plus_digit (decimal : N → bool) (bol : bool) (s : list N)
    (k : bool → list N → bool) :
  rmatch decimal (Plus Digit) bol s k = digit_run decimal s (k false).
Proof. apply (plus_digit_loop decimal (S (length s)) bol s k). lia. Qed.

Lemma digit_run_spec (decimal : N → bool) (s : list N) (k : list N → bool) :
  digit_run decimal s k = true ↔
  ∃ d s', digits decimal d = true ∧ s = d ++ s' ∧ k s' = true.
Proof.
  induction s as [|c s IH]; cbn [digit_run].
  - split; [done|]. intros (d & s' & Hd & Hs & _). by destruct d.
  - rewrite andb_true_iff, orb_true_iff, IH. split.
    + intros [Hc [Hk|(d & s' & Hd & -> & Hk)]].
      * exists [c], s. cbn. by rewrite Hc.
      * exists (c :: d), s'. split; [|done].
        cbn. rewrite Hc. by destruct d.
    + intros (d & s' & Hd & Hs & Hk).
      destruct d as [|c' d]; [done|]. injection Hs as -> ->.
      cbn in Hd. apply andb_true_iff in Hd as [Hc Hd]. split; [done|].
      destruct d as [|c'' d]; [by left|].
      right. by exists (c'' :: d), s'.
Qed.

Lemma rmatch_seq (decimal : N → bool) (r1 r2 : regex) (bol : bool)
    (s : list N) (k : bool → list N → bool) :
  rmatch decimal (Seq r1 r2) bol s k
  = rmatch decimal r1 bol s (λ bol' s', rmatch decimal r2 bol' s' k).
Proof. reflexivity. Qed.

Lemma rmatch_dot (decimal : N → bool) (bol : bool) (s : list N)
    (k : bool → list N → bool) :
  rmatch decimal (Chr ".") bol s k = true
  ↔ ∃ s', s = 46%N :: s' ∧ k false s' = true.
Proof.
  destruct s as [|c s]; cbn [rmatch].
  - split; [done|]. by intros (s' & ? & _).
  - rewrite andb_true_iff. split.
    + intros [Hc%N.eqb_eq Hk]. exists s. by rewrite <- Hc.
    + intros (s' & [= -> ->] & Hk). done.
Qed.

Lemma rmatch_opt (decimal : N → bool) (r : regex) (bol : bool) (s : list N)
    (k : bool → list N → bool) :
  rmatch decimal (Opt r) bol s k = rmatch decimal r bol s k || k bol s.
Proof. reflexivity. Qed.

Lemma rmatch_end (decimal : N → bool) (bol : bool) (s : list N) :
  rmatch decimal (Seq Eol Eps) bol s (λ _ _, true) = true
  ↔ s = [] ∨ s = [10%N].
Proof.
  destruct s as [|c [|c' s]]; cbn [rmatch].
  - split; [by left|done].
  - rewrite andb_true_r, N.eqb_eq.
    split; [intros ->; by right|by intros [?|[= ->]]].
  - split; [done|by intros [?|?]].
Qed.

Lemma search_anchored (decimal : N → bool) (r : regex) (s : list N) :
  existsb (λ p, rmatch decimal (Seq Bol r) p.1 p.2 (λ _ _, true))
          (positions true s)
  = rmatch decimal r true s (λ _ _, true).
Proof.
  destruct s as [|c s]; cbn [positions existsb fst snd].
  - cbn [rmatch andb]. apply orb_false_r.
  - rewrite rmatch_seq. cbn [rmatch andb].
    assert (H : ∀ s', existsb
                        (λ p, rmatch decimal (Seq Bol r) p.1 p.2 (λ _ _, true))
                        (positions false s') = false).
    { induction s' as [|c' s' IH]; cbn [positions existsb fst snd]; [done|].
      by rewrite IH. }
    by rewrite H, orb_false_r.
Qed.

Lemma rmatch_patch (decimal : N → bool) (bol : bool) (s : list N) :
  rmatch decimal
         (Seq (Opt (Seq (Chr ".") (Seq (Plus Digit) Eps))) (Seq Eol Eps))
         bol s (λ _ _, true) = true
  ↔ ∃ rest nl,
      (rest = [] ∨ ∃ patch, digits decimal patch = true
                            ∧ rest = 46%N :: patch)
      ∧ (nl = [] ∨ nl = [10%N])
      ∧ s = rest ++ nl.
Proof.
  rewrite rmatch_seq, rmatch_opt, orb_true_iff, rmatch_end.
  rewrite rmatch_seq, rmatch_dot. split.
  - intros [(s1 & -> & H)|H].
    + rewrite rmatch_seq, rmatch_plus_digit in H.
      apply digit_run_spec in H as (patch & nl & Hpatch & -> & H).
      apply (rmatch_end decimal false) in H.
      exists (46%N :: patch), nl. split_and!; [right; by exists patch|done..].
    + exists [], s. by split_and!; [left|..].
  - intros (rest & nl & [->|(patch & Hpatch & ->)] & Hnl & ->).
    + by right.
    + left. exists (patch ++ nl). split; [done|].
      rewrite rmatch_seq, rmatch_plus_digit. apply digit_run_spec.
      exists patch, nl. split_and!; [done..|].
      by apply (rmatch_end decimal false).
Qed.

Lemma search_version_pattern (decimal : N → bool) (s : string) :
  search decimal "^\d+\.\d+(\.\d+)?$" s = true ↔ is_version decimal s.
Proof.
  unfold search, is_version. rewrite compile_version_pattern.
  destruct (utf8_decode s) as [cs|].
  2: { split; [done|]. by intros (? & ? & ? & ? & _ & _ & _ & _ & ?). }
  unfold version_regex. rewrite search_anchored.
  rewrite rmatch_seq, rmatch_plus_digit, digit_run_spec. split.
  - intros (major & s1 & Hmajor & -> & H).
    rewrite rmatch_seq in H. apply rmatch_dot in H as (s2 & -> & H).
    rewrite rmatch_seq, rmatch_plus_digit in H.
    apply digit_run_spec in H as (minor & s3 & Hminor & -> & H).
    apply rmatch_patch in H as (rest & nl & Hrest & Hnl & ->).
    by exists major, minor, rest, nl.
  - intros (major & minor & rest & nl & Hmajor & Hminor & Hrest & Hnl
            & [= ->]).
    exists major, (46%N :: minor ++ rest ++ nl). split_and!; [done..|].
    rewrite rmatch_seq. apply rmatch_dot.
    exists (minor ++ rest ++ nl). split; [done|].
    rewrite rmatch_seq, rmatch_plus_digit. apply digit_run_spec.
    exists minor, (rest ++ nl). split_and!; [done..|].
    apply rmatch_patch. by exists rest, nl.
Qed.

(** A version in digits beyond ASCII matches where the class of [\d] has
    them, as Python's has the Arabic-Indic digits. *)
Lemma search_arabic_indic (decimal : N → bool) :
  decimal 1635%N = true → decimal 1632%N = true →
  search decimal "^\d+\.\d+(\.\d+)?$" "٣.٠" = true.
Proof.
  intros H3 H0. apply search_version_pattern.
  exists [1635%N], [1632%N], [], []. cbn [digits forallb].
  rewrite H3, H0. split_and!; [done|done|by left|by left|reflexivity].
Qed.

(** C8: the schema puts the pattern [^\d+\.\d+(\.\d+)?$] on
    ["ruby-version"]. Whatever class of digits [\d] stands for, the
    strings ["3"], ["vX"] and [""] do not match it, and validation of any
    properties with a version that does not match is a [SchemaViolation];
    for these three strings it names ["ruby-version"] and its pattern. With
    the ASCII digits in the class, ["3.0"] and ["2.7.2"] match. The schema
    sets ["additionalProperties"] to [False] and declares the eight keys,
    so that properties with any other key are a [SchemaViolation]. Every
    key has a default, and the empty properties validate to the options
    that hold all the defaults. *)
Theorem schema_rejects_malformed (decimal : N → bool) :
  version_pattern = Some (VStr "^\d+\.\d+(\.\d+)?$")
  ∧ search decimal "^\d+\.\d+(\.\d+)?$" "3" = false
  ∧ search decimal "^\d+\.\d+(\.\d+)?$" "vX" = false
  ∧ search decimal "^\d+\.\d+(\.\d+)?$" "" = false
  ∧ ((∀ n, ascii_digit n = true → decimal n = true) →
     search decimal "^\d+\.\d+(\.\d+)?$" "3.0" = true
     ∧ search decimal "^\d+\.\d+(\.\d+)?$" "2.7.2" = true)
  ∧ (∀ (raw_options : gmap string value) (s : string),
       search decimal "^\d+\.\d+(\.\d+)?$" s = false →
       ∃ key constraint,
         validate decimal (<["ruby-version" := VStr s]> raw_options)
         = inl (SchemaViolation key constraint))
  ∧ validate decimal {["ruby-version" := VStr "3"]}
    = inl (SchemaViolation "ruby-version" "pattern")
  ∧ validate decimal {["ruby-version" := VStr "vX"]}
    = inl (SchemaViolation "ruby-version" "pattern")
  ∧ validate decimal {["ruby-version" := VStr ""]}
    = inl (SchemaViolation "ruby-version" "pattern")
  ∧ dict_get "additionalProperties" get_schema = Some (VBool false)
  ∧ schema_properties.*1 =
      [ "ruby-flavor"; "ruby-version"; "ruby-use-bundler"; "ruby-prefix";
        "ruby-use-jemalloc"; "ruby-shared"; "ruby-configure-options";
        "ruby-gems" ]
  ∧ (∀ (raw_options : gmap string value) (key : string) (v : value),
       key ∉ schema_properties.*1 →
       ∃ key' constraint,
         validate decimal (<[key := v]> raw_options)
         = inl (SchemaViolation key' constraint))
  ∧ Forall (λ p, is_Some (dict_get "default" p.2)) schema_properties
  ∧ validate decimal ∅ = inr default_options.
Proof.
  assert (H3 : search decimal "^\d+\.\d+(\.\d+)?$" "3" = false).
  { vm_compute. by destruct (decimal _). }
  assert (HvX : search decimal "^\d+\.\d+(\.\d+)?$" "vX" = false).
  { vm_compute. by repeat destruct (decimal _). }
  assert (Hempty : search decimal "^\d+\.\d+(\.\d+)?$" "" = false)
    by reflexivity.
  assert (Hone : ∀ s, search decimal "^\d+\.\d+(\.\d+)?$" s = false →
            validate decimal {["ruby-version" := VStr s]}
            = inl (SchemaViolation "ruby-version" "pattern")).
  { intros s Hs. unfold validate.
    change (dict_get "additionalProperties" get_schema)
      with (Some (VBool false)).
    cbv beta iota zeta. unfold unknown_keys.
    rewrite map_to_list_singleton. cbn [fmap list_fmap fst].
    rewrite filter_cons_False, filter_nil by (by intros ?).
    unfold schema_properties at 1. cbn [dict_get get_schema assoc String.eqb
      Ascii.eqb Bool.eqb from_option dict_items first_violation].
    rewrite lookup_singleton_ne by done. cbn [mbind option_bind].
    rewrite lookup_singleton_eq. cbn [mbind option_bind].
    by rewrite check_value_version, Hs. }
  split_and!;
    [reflexivity|exact H3|exact HvX|exact Hempty| |
    |by apply Hone|by apply Hone|by apply Hone
    |reflexivity|reflexivity| | |by vm_compute].
  - intros Hascii. split; apply search_version_pattern.
    + exists [51%N], [48%N], [], []. cbn [digits forallb].
      rewrite !Hascii by done. split_and!; [done|done|by left|by left|done].
    + exists [50%N], [55%N], [46%N; 50%N], []. cbn [digits forallb].
      rewrite !Hascii by done.
      split_and!; [done|done| |by left|done].
      right. exists [50%N]. cbn [digits forallb]. by rewrite Hascii.
  - intros raw_options s Hs.
    eapply (validate_violation _ _ "ruby-version" "pattern").
    + unfold schema_properties. cbn. rewrite !elem_of_cons. right; left. done.
    + rewrite lookup_insert_eq. cbn [mbind option_bind].
      by rewrite check_value_version, Hs.
  - intros raw_options key v Hkey.
    by eapply validate_unknown_key, unknown_keys_insert.
  - unfold schema_properties. cbn. repeat constructor; by eexists.
Qed.

Lemma schema_rejects_malformed_witness :
  (∃ key constraint,
     validate ascii_digit (<["ruby-version" := VStr "3"]> ∅)
     = inl (SchemaViolation key constraint))
  ∧ search ascii_digit "^\d+\.\d+(\.\d+)?$" "3.0" = true.
Proof.
  destruct (schema_rejects_malformed ascii_digit)
    as (_ & H3 & _ & _ & Hascii & Hreject & _).
  split; [by apply Hreject|by apply Hascii].
Defined.

(** ** The methods over the store *)

Section store_facts.

Lemma bind_run {A B} (m : Store.M A) (f : A → Store.M B) (h : Store.heap) :
  (m ≫= f) h = match m h with Some (x, h') => f x h' | None => None end.
Proof. reflexivity. Qed.

Lemma list_read_old (h t : Store.heap) (r : Store.ref) (l : list string) :
  h !! r = Some (Store.OList l) →
  Store.list_read r (h ++ t) = Some (l, h ++ t).
Proof.
  intros Hr. unfold Store.list_read. by rewrite (lookup_app_l_Some _ _ _ _ Hr).
Qed.

Lemma list_read_at (h t : Store.heap) (l : list string) :
  Store.list_read (length h) (h ++ Store.OList l :: t)
  = Some (l, h ++ Store.OList l :: t).
Proof. unfold Store.list_read. by rewrite list_lookup_middle. Qed.

Lemma list_append_at (h t : Store.heap) (l : list string) (x : string) :
  Store.list_append (length h) x (h ++ Store.OList l :: t)
  = Some (tt, h ++ Store.OList (append l x) :: t).
Proof.
  unfold Store.list_append. rewrite list_lookup_middle by done.
  by rewrite insert_app_r_alt, Nat.sub_diag by done.
Qed.

Lemma list_append_next (h : Store.heap) (o : Store.object)
    (l : list string) (x : string) :
  Store.list_append (S (length h)) x (h ++ [o; Store.OList l])
  = Some (tt, h ++ [o; Store.OList (append l x)]).
Proof.
  replace (S (length h)) with (length (h ++ [o]))
    by (rewrite length_app; simpl; lia).
  rewrite (assoc_L (++) h [o] [Store.OList l]) at 1.
  rewrite list_append_at. by rewrite <- (assoc_L (++)).
Qed.

Lemma load_inv (self : Store.options) (h : Store.heap) (o : options) :
  load self h = Some o →
  h !! Store.ruby_configure_options self
    = Some (Store.OList (ruby_configure_options o))
  ∧ h !! Store.ruby_gems self = Some (Store.OList (ruby_gems o))
  ∧ Store.ruby_flavor self = ruby_flavor o
  ∧ Store.ruby_version self = ruby_version o
  ∧ Store.ruby_use_bundler self = ruby_use_bundler o
  ∧ Store.ruby_prefix self = ruby_prefix o
  ∧ Store.ruby_use_jemalloc self = ruby_use_jemalloc o
  ∧ Store.ruby_shared self = ruby_shared o.
Proof.
  unfold load. intros H.
  destruct (h !! Store.ruby_configure_options self) as [[l1| |]|]; try done.
  destruct (h !! Store.ruby_gems self) as [[l2| |]|]; try done.
  by injection H as <-.
Qed.

Lemma load_app (self : Store.options) (h t : Store.heap) (o : options) :
  load self h = Some o → load self (h ++ t) = Some o.
Proof.
  intros H. pose proof H as (H1 & H2 & _)%load_inv.
  unfold load in *.
  rewrite (lookup_app_l_Some _ _ _ _ H1), (lookup_app_l_Some _ _ _ _ H2).
  by rewrite H1, H2 in H.
Qed.

Lemma ret_run {A} (x : A) (h : Store.heap) :
  (mret x : Store.M A) h = Some (x, h).
Proof. reflexivity. Qed.

Ltac store_steps :=
  repeat first
    [ rewrite bind_run | rewrite ret_run
    | rewrite list_append_at | rewrite list_append_next
    | progress cbv beta iota ].

Lemma store_configure_opts_run (self : Store.options) (h : Store.heap)
    (o : options) :
  load self h = Some o →
  Store._configure_opts self h
  = Some (length h, h ++ [Store.OList (_configure_opts o)]).
Proof.
  intros (H1 & _ & _ & _ & _ & _ & Hj & Hs)%load_inv.
  unfold Store._configure_opts, Store.list_concat, _configure_opts.
  rewrite !bind_run. unfold Store.list_read at 1. rewrite H1, Hj, Hs.
  unfold Store.alloc.
  destruct (ruby_shared o), (ruby_use_jemalloc o); cbn [Store.when];
    by store_steps.
Qed.

Lemma store_get_build_commands_run (self : Store.options) (h : Store.heap)
    (o : options) :
  load self h = Some o →
  Store.get_build_commands self h
  = Some (S (length h),
          h ++ [Store.OList (_configure_opts o);
                Store.OList (get_build_commands o)]).
Proof.
  intros Hload.
  pose proof Hload as (_ & H2 & Hf & Hv & Hb & Hp & _ & _)%load_inv.
  unfold Store.get_build_commands, get_build_commands.
  rewrite !bind_run, (store_configure_opts_run _ _ _ Hload).
  cbv beta iota. rewrite (list_read_at h []).
  cbv beta iota. rewrite bind_run. unfold Store.alloc.
  rewrite length_app, Nat.add_1_r, <- (assoc_L (++)).
  cbn [app]. rewrite Hf, Hv, Hb, Hp.
  do 10 (rewrite bind_run, list_append_next; cbv beta iota).
  cbv zeta.
  destruct (ruby_use_bundler o); cbn [Store.when]; store_steps;
    rewrite (list_read_old h _ _ _ H2); store_steps;
    destruct (truthy (ruby_gems o)); cbn [Store.when]; store_steps;
    rewrite ?(list_read_old h _ _ _ H2); by store_steps.
Qed.

Lemma store_get_build_packages_run (self : Store.options) (h : Store.heap)
    (o : options) :
  load self h = Some o →
  Store.get_build_packages self h
  = Some (length h, h ++ [Store.OSet (get_build_packages o)]).
Proof.
  intros (_ & _ & _ & _ & _ & _ & Hj & _)%load_inv.
  unfold Store.get_build_packages, get_build_packages, Store.alloc.
  rewrite Hj. store_steps.
  destruct (ruby_use_jemalloc o); cbn [Store.when]; store_steps; [|done].
  unfold Store.set_add. rewrite list_lookup_middle by done.
  by rewrite insert_app_r_alt, Nat.sub_diag by done.
Qed.

Lemma store_get_build_environment_run (self : Store.options)
    (h : Store.heap) (o : options) :
  load self h = Some o →
  Store.get_build_environment self h
  = Some (length h, h ++ [Store.ODict (get_build_environment o)]).
Proof.
  intros (_ & _ & _ & _ & _ & Hp & _ & Hs)%load_inv.
  unfold Store.get_build_environment, get_build_environment, Store.alloc.
  rewrite Hp, Hs. store_steps.
  destruct (ruby_shared o); cbn [Store.when]; store_steps; [|done].
  unfold Store.dict_set. rewrite list_lookup_middle by done.
  by rewrite insert_app_r_alt, Nat.sub_diag by done.
Qed.

Lemma store_get_build_commands_result (self : Store.options)
    (h : Store.heap) (o : options) :
  load self h = Some o →
  result (Store.get_build_commands self) h
  = Some (Store.OList (get_build_commands o),
          h ++ [Store.OList (_configure_opts o);
                Store.OList (get_build_commands o)]).
Proof.
  intros Hload. unfold result.
  rewrite (store_get_build_commands_run _ _ _ Hload).
  rewrite lookup_app_r by lia.
  by replace (S (length h) - length h) with 1 by lia.
Qed.

Lemma store_get_build_packages_result (self : Store.options)
    (h : Store.heap) (o : options) :
  load self h = Some o →
  result (Store.get_build_packages self) h
  = Some (Store.OSet (get_build_packages o),
          h ++ [Store.OSet (get_build_packages o)]).
Proof.
  intros Hload. unfold result.
  rewrite (store_get_build_packages_run _ _ _ Hload).
  by rewrite list_lookup_middle.
Qed.

Lemma store_get_build_environment_result (self : Store.options)
    (h : Store.heap) (o : options) :
  load self h = Some o →
  result (Store.get_build_environment self) h
  = Some (Store.ODict (get_build_environment o),
          h ++ [Store.ODict (get_build_environment o)]).
Proof.
  intros Hload. unfold result.
  rewrite (store_get_build_environment_run _ _ _ Hload).
  by rewrite list_lookup_middle.
Qed.

End store_facts.

(** C6: two runs on the same configuration give the same plan. Whatever
    the two stores and plugin objects, when both stand for the options [o],
    [get_build_commands] returns in both a list with the same commands,
    those of [o]; the same holds of the set that [get_build_packages]
    returns and of the dict that [get_build_environment] returns. A run
    only adds objects to the store, so that the plugin object stands for
    the same options after it, and a run after a run gives the same again. *)
Theorem plan_assembly_deterministic (self1 self2 : Store.options)
    (h1 h2 : Store.heap) (o : options) :
  load self1 h1 = Some o →
  load self2 h2 = Some o →
  (∃ h1' h2',
     result (Store.get_build_commands self1) h1
       = Some (Store.OList (get_build_commands o), h1')
     ∧ result (Store.get_build_commands self2) h2
       = Some (Store.OList (get_build_commands o), h2')
     ∧ h1 `prefix_of` h1' ∧ h2 `prefix_of` h2'
     ∧ load self1 h1' = Some o ∧ load self2 h2' = Some o)
  ∧ (∃ h1' h2',
     result (Store.get_build_packages self1) h1
       = Some (Store.OSet (get_build_packages o), h1')
     ∧ result (Store.get_build_packages self2) h2
       = Some (Store.OSet (get_build_packages o), h2')
     ∧ h1 `prefix_of` h1' ∧ h2 `prefix_of` h2'
     ∧ load self1 h1' = Some o ∧ load self2 h2' = Some o)
  ∧ (∃ h1' h2',
     result (Store.get_build_environment self1) h1
       = Some (Store.ODict (get_build_environment o), h1')
     ∧ result (Store.get_build_environment self2) h2
       = Some (Store.ODict (get_build_environment o), h2')
     ∧ h1 `prefix_of` h1' ∧ h2 `prefix_of` h2'
     ∧ load self1 h1' = Some o ∧ load self2 h2' = Some o).
Proof.
  intros Hload1 Hload2. split_and!.
  - eexists _, _. split_and!;
      [by apply store_get_build_commands_result..
      |by apply prefix_app_r|by apply prefix_app_r
      |by apply load_app|by apply load_app].
  - eexists _, _. split_and!;
      [by apply store_get_build_packages_result..
      |by apply prefix_app_r|by apply prefix_app_r
      |by apply load_app|by apply load_app].
  - eexists _, _. split_and!;
      [by apply store_get_build_environment_result..
      |by apply prefix_app_r|by apply prefix_app_r
      |by apply load_app|by apply load_app].
Qed.

Lemma plan_assembly_deterministic_witness :
  ∃ h',
    result (Store.get_build_commands (store_of default_options).1)
           (store_of default_options).2
    = Some (Store.OList (get_build_commands default_options), h').
Proof.
  destruct (plan_assembly_deterministic
              (store_of default_options).1 (store_of default_options).1
              (store_of default_options).2 (store_of default_options).2
              default_options eq_refl eq_refl)
    as [(h1' & _ & H & _) _].
  by exists h1'.
Defined.


(** ** Further properties of the plan

    Strings, and the words of a string. *)

Lemma string_app_cons (c : ascii) (s t : string) :
  String c s +:+ t = String c (s +:+ t).
Proof. reflexivity. Qed.

Lemma string_app_nil_r (s : string) : s +:+ "" = s.
Proof. induction s as [|c s IH]; [done|]. by rewrite string_app_cons, IH. Qed.

Lemma string_app_assoc (s1 s2 s3 : string) :
  (s1 +:+ s2) +:+ s3 = s1 +:+ s2 +:+ s3.
Proof.
  induction s1 as [|c s1 IH]; [done|]. by rewrite !string_app_cons, IH.
Qed.

Lemma join_concat (sep : string) (l : list string) :
  join sep l = String.concat sep l.
Proof. induction l as [|x [|y l] IH]; [done..|]. cbn [join String.concat] in *. by rewrite IH. Qed.

Lemma no_space_app (s1 s2 : string) :
  no_space (s1 +:+ s2) = no_space s1 && no_space s2.
Proof.
  induction s1 as [|c s1 IH]; [done|].
  rewrite string_app_cons. cbn [no_space]. by rewrite IH, andb_assoc.
Qed.

Lemma rev_app_rev_app (w a b : string) :
  String.rev_app (String.rev_app w a) b = String.rev_app a (w +:+ b).
Proof.
  revert a. induction w as [|c w IH]; intros a; [done|].
  rewrite string_app_cons. cbn [String.rev_app]. by rewrite IH.
Qed.

Lemma words_go_no_space (acc w rest : string) :
  no_space w = true →
  String.words_go (Some acc) (w +:+ rest)
  = String.words_go (Some (String.rev_app w acc)) rest.
Proof.
  revert acc. induction w as [|c w IH]; intros acc Hw; [done|].
  cbn [no_space] in Hw. apply andb_true_iff in Hw as [Hc Hw].
  rewrite string_app_cons. cbn [String.words_go String.rev_app].
  apply negb_true_iff in Hc. rewrite Hc. cbn [from_option]. by apply IH.
Qed.

Lemma words_go_word (w rest : string) :
  is_word w = true →
  String.words_go None (w +:+ rest)
  = String.words_go (Some (String.rev w)) rest.
Proof.
  destruct w as [|c w]; [done|]. cbn [is_word no_space]. intros Hw.
  apply andb_true_iff in Hw as [Hc Hw].
  rewrite string_app_cons. cbn [String.words_go].
  apply negb_true_iff in Hc. rewrite Hc. cbn [from_option].
  by rewrite words_go_no_space.
Qed.

Lemma rev_rev (w : string) : String.rev (String.rev w) = w.
Proof. unfold String.rev. by rewrite rev_app_rev_app, string_app_nil_r. Qed.

Lemma words_go_word_space (w rest : string) :
  is_word w = true →
  String.words_go None (w +:+ " " +:+ rest) = w :: String.words_go None rest.
Proof.
  intros Hw. rewrite words_go_word by done.
  change (String.words_go (Some (String.rev w)) (" " +:+ rest))
    with (String.rev (String.rev w) :: String.words_go None rest).
  by rewrite rev_rev.
Qed.

Lemma words_go_word_end (w : string) :
  is_word w = true → String.words_go None w = [w].
Proof.
  intros Hw. rewrite <- (string_app_nil_r w) at 1.
  rewrite words_go_word by done.
  change (String.words_go (Some (String.rev w)) "")
    with [String.rev (String.rev w)].
  by rewrite rev_rev.
Qed.

Lemma words_join (l : list string) :
  Forall (λ w, is_word w = true) l →
  String.words (join " " l) = l.
Proof.
  unfold String.words.
  induction l as [|x [|y l] IH]; intros Hl; [done|..].
  - cbn [join]. apply words_go_word_end. by inversion Hl.
  - cbn [join]. inversion Hl as [|?? Hx Hl']; subst.
    rewrite words_go_word_space by done. f_equal. by apply IH.
Qed.

(** X1: a plan has the ten fixed commands, one more with
    [ruby_use_bundler] and one more with a list of gems that is not empty:
    between 10 and 12 commands. *)
Theorem get_build_commands_length (self : options) :
  length (get_build_commands self)
  = 10 + (if ruby_use_bundler self then 1 else 0)
       + (if truthy (ruby_gems self) then 1 else 0).
Proof.
  rewrite get_build_commands_eq, !length_app, fixed_commands_length.
  by destruct (ruby_use_bundler self), (truthy (ruby_gems self)).
Qed.

(** X2: no option changes the download, the display and the check of the
    checksum, the unpacking (indexes 0 to 6) or the installation of bundler
    (index 9): these commands are the same in the plans of any two
    options. *)
Theorem fixed_steps_independent (self self' : options) (i : nat) :
  i < 7 ∨ i = 9 →
  get_build_commands self !! i = get_build_commands self' !! i.
Proof.
  intros Hi. rewrite !get_build_commands_eq.
  rewrite !lookup_app_l by (rewrite fixed_commands_length; lia).
  unfold fixed_commands.
  do 7 (destruct i as [|i]; [done|]).
  destruct Hi as [Hi|[= ->]]; [lia|done].
Qed.

Lemma fixed_steps_independent_witness :
  get_build_commands default_options !! 5
  = get_build_commands (with_gems default_options ["rake"]) !! 5.
Proof. apply fixed_steps_independent. left. lia. Defined.

Lemma conditional_flags (self : options) :
  drop (3 + length (ruby_configure_options self)) (_configure_opts self)
  = (if ruby_shared self then ["--enable-shared"] else [])
    ++ (if ruby_use_jemalloc self then ["--with-jemalloc"] else []).
Proof.
  rewrite _configure_opts_eq.
  change (3 + ?k) with (S (S (S k))). cbn [app drop].
  by rewrite drop_app_length.
Qed.

(** X3: the build packages and the build environment agree with the
    flags that [_configure_opts] itself adds after the caller's options:
    ["libjemalloc-dev"] is a build package exactly when [--with-jemalloc]
    is added, and [LD_LIBRARY_PATH] is set exactly when [--enable-shared]
    is added. *)
Theorem packages_match_configure_flags (self : options) :
  let n := 3 + length (ruby_configure_options self) in
  ("libjemalloc-dev" ∈ get_build_packages self
   ↔ "--with-jemalloc" ∈ drop n (_configure_opts self))
  ∧ (is_Some (get_build_environment self !! "LD_LIBRARY_PATH")
     ↔ "--enable-shared" ∈ drop n (_configure_opts self)).
Proof.
  intros n. subst n. rewrite conditional_flags.
  assert (Hp : "libjemalloc-dev" ∈ get_build_packages self
               ↔ ruby_use_jemalloc self = true).
  { rewrite get_build_packages_eq.
    destruct (ruby_use_jemalloc self); [|by rewrite elem_of_singleton].
    rewrite elem_of_union, !elem_of_singleton. split; [done|by right]. }
  assert (He : is_Some (get_build_environment self !! "LD_LIBRARY_PATH")
               ↔ ruby_shared self = true).
  { unfold get_build_environment. destruct (ruby_shared self).
    - by rewrite lookup_insert_eq.
    - rewrite lookup_singleton_ne by done. split; [by intros [??]|done]. }
  rewrite Hp, He.
  destruct (ruby_shared self), (ruby_use_jemalloc self); cbn [app];
    rewrite ?elem_of_cons, ?elem_of_nil; split; split; try done;
    try (intros _; by auto); by intros [?|[?|?]] || by intros [?|?].
Qed.

Lemma gem_install_words (gems : list string) :
  Forall (λ w, is_word w = true) gems →
  String.words (gem_install gems)
  = ["gem"; "install"; "--env-shebang"; "--no-document"] ++ gems.
Proof.
  intros Hgems. unfold String.words, gem_install.
  change ("gem install --env-shebang --no-document " +:+ join " " gems)
    with ("gem" +:+ " " +:+ "install" +:+ " " +:+ "--env-shebang" +:+ " "
          +:+ "--no-document" +:+ " " +:+ join " " gems).
  rewrite !words_go_word_space by done.
  cbn [app]. do 4 f_equal. by apply words_join.
Qed.

(** X5: when the gems are words and the list is not empty, the last
    command of the plan splits at white space into [gem], [install],
    [--env-shebang], [--no-document] and then exactly the gems, in the
    caller's order. *)
Theorem gems_command_words (self : options) :
  ruby_gems self ≠ [] →
  Forall (λ w, is_word w = true) (ruby_gems self) →
  ∃ c, last (get_build_commands self) = Some c
       ∧ String.words c
         = ["gem"; "install"; "--env-shebang"; "--no-document"]
           ++ ruby_gems self.
Proof.
  intros Hne Hgems. exists (gem_install (ruby_gems self)).
  split; [|by apply gem_install_words].
  rewrite get_build_commands_eq.
  destruct (ruby_gems self) as [|g gems] eqn:E; [done|]. cbn [truthy].
  by rewrite !(assoc_L (++)), last_snoc.
Qed.

Lemma gems_command_words_witness :
  ∃ c, last (get_build_commands (with_gems default_options ["rake"; "rspec"]))
       = Some c
       ∧ String.words c
         = ["gem"; "install"; "--env-shebang"; "--no-document"]
           ++ ["rake"; "rspec"].
Proof.
  apply (gems_command_words (with_gems default_options ["rake"; "rspec"]));
    [discriminate|by repeat constructor].
Defined.

Lemma _configure_opts_words (self : options) :
  Forall (λ w, is_word w = true) (ruby_configure_options self) →
  Forall (λ w, is_word w = true) (_configure_opts self).
Proof.
  intros H. rewrite _configure_opts_eq.
  repeat (apply Forall_cons; split; [done|]).
  apply Forall_app. split; [done|].
  destruct (ruby_shared self), (ruby_use_jemalloc self);
    by repeat constructor.
Qed.

Lemma installer_command_split (p f v j : string) :
  "ruby-install-0.8.5/bin/ruby-install --src-dir ${SNAPCRAFT_PART_SRC} --install-dir ${SNAPCRAFT_PART_INSTALL}"
    +:+ p
    +:+ " --package-manager apt --jobs=${SNAPCRAFT_PARALLEL_BUILD_COUNT} "
    +:+ f +:+ "-" +:+ v +:+ " -- " +:+ j
  = "ruby-install-0.8.5/bin/ruby-install" +:+ " " +:+ "--src-dir" +:+ " "
     +:+ "${SNAPCRAFT_PART_SRC}" +:+ " " +:+ "--install-dir" +:+ " "
     +:+ ("${SNAPCRAFT_PART_INSTALL}" +:+ p) +:+ " "
     +:+ "--package-manager" +:+ " " +:+ "apt" +:+ " "
     +:+ "--jobs=${SNAPCRAFT_PARALLEL_BUILD_COUNT}" +:+ " "
     +:+ (f +:+ "-" +:+ v) +:+ " "
     +:+ "--" +:+ " " +:+ j.
Proof.
  rewrite !string_app_assoc.
  vm_compute. reflexivity.
Qed.

(** X6: when the prefix, the flavor and the version have no white space
    and the caller's configure options are words, the installer command
    splits at white space into the installer, its source and install
    directories, the package manager, the number of jobs, the name
    flavor-version, the separator [--] and then exactly the configure
    options of [_configure_opts]. *)
Theorem installer_command_words (self : options) :
  no_space (ruby_prefix self) = true →
  no_space (ruby_flavor self) = true →
  no_space (ruby_version self) = true →
  Forall (λ w, is_word w = true) (ruby_configure_options self) →
  ∃ c, get_build_commands self !! 7 = Some c
       ∧ String.words c
         = [ "ruby-install-0.8.5/bin/ruby-install";
             "--src-dir"; "${SNAPCRAFT_PART_SRC}";
             "--install-dir"; "${SNAPCRAFT_PART_INSTALL}" +:+ ruby_prefix self;
             "--package-manager"; "apt";
             "--jobs=${SNAPCRAFT_PARALLEL_BUILD_COUNT}";
             ruby_flavor self +:+ "-" +:+ ruby_version self;
             "--" ]
           ++ _configure_opts self.
Proof.
  intros Hp Hf Hv Hopts.
  exists ("ruby-install-0.8.5/bin/ruby-install --src-dir ${SNAPCRAFT_PART_SRC} --install-dir ${SNAPCRAFT_PART_INSTALL}"
            +:+ ruby_prefix self
            +:+ " --package-manager apt --jobs=${SNAPCRAFT_PARALLEL_BUILD_COUNT} "
            +:+ ruby_flavor self +:+ "-" +:+ ruby_version self
            +:+ " -- " +:+ join " " (_configure_opts self)).
  split; [by rewrite get_build_commands_eq|].
  assert (Hd : is_word ("${SNAPCRAFT_PART_INSTALL}" +:+ ruby_prefix self) = true).
  { change (is_word ("${SNAPCRAFT_PART_INSTALL}" +:+ ruby_prefix self))
      with (no_space ("${SNAPCRAFT_PART_INSTALL}" +:+ ruby_prefix self)).
    by rewrite no_space_app, Hp. }
  assert (Hfv : is_word (ruby_flavor self +:+ "-" +:+ ruby_version self) = true).
  { assert (Hns : no_space (ruby_flavor self +:+ "-" +:+ ruby_version self) = true)
      by (by rewrite !no_space_app, Hf, Hv).
    destruct (ruby_flavor self) as [|c f] eqn:E; [done|].
    by rewrite string_app_cons in *. }
  rewrite installer_command_split. unfold String.words.
  rewrite (words_go_word_space "ruby-install-0.8.5/bin/ruby-install") by done.
  rewrite (words_go_word_space "--src-dir") by done.
  rewrite (words_go_word_space "${SNAPCRAFT_PART_SRC}") by done.
  rewrite (words_go_word_space "--install-dir") by done.
  rewrite (words_go_word_space _ _ Hd).
  rewrite (words_go_word_space "--package-manager") by done.
  rewrite (words_go_word_space "apt") by done.
  rewrite (words_go_word_space "--jobs=${SNAPCRAFT_PARALLEL_BUILD_COUNT}") by done.
  rewrite (words_go_word_space _ _ Hfv).
  rewrite (words_go_word_space "--") by done.
  cbn [app]. do 10 f_equal. by apply words_join, _configure_opts_words.
Qed.

Lemma installer_command_words_witness :
  ∃ c, get_build_commands default_options !! 7 = Some c
       ∧ String.words c
         = [ "ruby-install-0.8.5/bin/ruby-install";
             "--src-dir"; "${SNAPCRAFT_PART_SRC}";
             "--install-dir";
             "${SNAPCRAFT_PART_INSTALL}" +:+ ruby_prefix default_options;
             "--package-manager"; "apt";
             "--jobs=${SNAPCRAFT_PARALLEL_BUILD_COUNT}";
             ruby_flavor default_options +:+ "-" +:+ ruby_version default_options;
             "--" ]
           ++ _configure_opts default_options.
Proof.
  apply (installer_command_words default_options);
    [reflexivity..|apply Forall_nil_2].
Defined.

Lemma remove_command_split (p : string) :
  "rm -f ${SNAPCRAFT_PART_INSTALL}" +:+ p +:+ "/bin/{bundle,bundler}"
  = "rm" +:+ " " +:+ "-f" +:+ " "
     +:+ (("${SNAPCRAFT_PART_INSTALL}" +:+ p) +:+ "/bin/{bundle,bundler}").
Proof.
  rewrite !string_app_assoc.
  vm_compute. reflexivity.
Qed.

(** X4: when the prefix has no white space, one directory [d], the
    install root followed by the prefix, is the word after
    [--install-dir] in the installer command, the directory of the [bin]
    that is the only argument of the removal command after [-f], the
    directory whose [bin] is put ahead in [PATH], and the directory whose
    [lib] is put ahead in [LD_LIBRARY_PATH] when that is set. *)
Theorem install_directory_consistent (self : options) :
  no_space (ruby_prefix self) = true →
  let d := "${SNAPCRAFT_PART_INSTALL}" +:+ ruby_prefix self in
  let env := get_build_environment self in
  let commands := get_build_commands self in
  (∃ c, commands !! 7 = Some c
        ∧ take 5 (String.words c)
          = [ "ruby-install-0.8.5/bin/ruby-install";
              "--src-dir"; "${SNAPCRAFT_PART_SRC}"; "--install-dir"; d ])
  ∧ (∃ c, commands !! 8 = Some c
          ∧ String.words c = ["rm"; "-f"; d +:+ "/bin/{bundle,bundler}"])
  ∧ env !! "PATH" = Some (d +:+ "/bin:${PATH}")
  ∧ env !! "LD_LIBRARY_PATH"
    = (if ruby_shared self
       then Some (d +:+ "/lib${LD_LIBRARY_PATH:+:$LD_LIBRARY_PATH}")
       else None).
Proof.
  intros Hp d env commands. subst env commands.
  assert (Hd : is_word d = true).
  { subst d.
    change (is_word ("${SNAPCRAFT_PART_INSTALL}" +:+ ruby_prefix self))
      with (no_space ("${SNAPCRAFT_PART_INSTALL}" +:+ ruby_prefix self)).
    by rewrite no_space_app, Hp. }
  assert (Hbin : is_word (d +:+ "/bin/{bundle,bundler}") = true).
  { assert (Hns : no_space (d +:+ "/bin/{bundle,bundler}") = true).
    { rewrite no_space_app. destruct d; [done|].
      cbn [is_word] in Hd. by rewrite Hd. }
    destruct d; [done|]. by rewrite string_app_cons in *. }
  split_and!.
  - exists ("ruby-install-0.8.5/bin/ruby-install --src-dir ${SNAPCRAFT_PART_SRC} --install-dir ${SNAPCRAFT_PART_INSTALL}"
              +:+ ruby_prefix self
              +:+ " --package-manager apt --jobs=${SNAPCRAFT_PARALLEL_BUILD_COUNT} "
              +:+ ruby_flavor self +:+ "-" +:+ ruby_version self
              +:+ " -- " +:+ join " " (_configure_opts self)).
    split; [by rewrite get_build_commands_eq|].
    rewrite installer_command_split. unfold String.words.
    rewrite (words_go_word_space "ruby-install-0.8.5/bin/ruby-install") by done.
    rewrite (words_go_word_space "--src-dir") by done.
    rewrite (words_go_word_space "${SNAPCRAFT_PART_SRC}") by done.
    rewrite (words_go_word_space "--install-dir") by done.
    fold d. rewrite (words_go_word_space d _ Hd).
    reflexivity.
  - exists ("rm -f ${SNAPCRAFT_PART_INSTALL}" +:+ ruby_prefix self
              +:+ "/bin/{bundle,bundler}").
    split; [by rewrite get_build_commands_eq|].
    rewrite remove_command_split. unfold String.words.
    rewrite (words_go_word_space "rm") by done.
    rewrite (words_go_word_space "-f") by done.
    fold d. by rewrite (words_go_word_end _ Hbin).
  - unfold get_build_environment, d. destruct (ruby_shared self).
    + rewrite lookup_insert_ne by done. rewrite lookup_singleton_eq.
      by rewrite !string_app_assoc.
    + rewrite lookup_singleton_eq. by rewrite !string_app_assoc.
  - unfold get_build_environment, d. destruct (ruby_shared self).
    + rewrite lookup_insert_eq. by rewrite !string_app_assoc.
    + by rewrite lookup_singleton_ne.
Qed.

Lemma install_directory_consistent_witness :
  get_build_environment default_options !! "PATH"
  = Some (("${SNAPCRAFT_PART_INSTALL}" +:+ ruby_prefix default_options)
            +:+ "/bin:${PATH}").
Proof.
  apply (install_directory_consistent default_options). reflexivity.
Defined.

Lemma join_split_element (l1 l2 : list string) (a b : string) :
  join " " (l1 ++ [a +:+ " " +:+ b] ++ l2) = join " " (l1 ++ [a; b] ++ l2).
Proof.
  induction l1 as [|x l1 IH].
  - cbn [app]. destruct l2 as [|y l2]; [done|].
    cbn [join]. by rewrite !string_app_assoc.
  - cbn [app] in *.
    destruct l1 as [|x' l1]; cbn [app join] in *; by rewrite IH.
Qed.

(** X7: the gems are joined without quoting: a gem name with a space in
    it gives the same plan as the two names on either side of the space
    given as two gems. *)
Theorem gems_not_quoted (self : options) (l1 l2 : list string) (a b : string) :
  get_build_commands (with_gems self (l1 ++ [a +:+ " " +:+ b] ++ l2))
  = get_build_commands (with_gems self (l1 ++ [a; b] ++ l2)).
Proof.
  rewrite !get_build_commands_eq. unfold gem_install.
  cbn [with_gems ruby_gems ruby_use_bundler].
  rewrite join_split_element.
  change (fixed_commands (with_gems self ?g)) with (fixed_commands self).
  by destruct l1.
Qed.

(** X8: whatever class of digits [\d] stands for, the pattern that the
    schema puts on ["ruby-version"] matches exactly the strings whose code
    points are a major and a minor number, and optionally a patch number,
    each one or more digits of the class, separated by dots, with one
    newline at the end let through. *)
Theorem version_pattern_language (decimal : N → bool) :
  ∃ pattern,
    version_pattern = Some (VStr pattern)
    ∧ ∀ s, search decimal pattern s = true ↔ is_version decimal s.
Proof.
  exists "^\d+\.\d+(\.\d+)?$". split; [done|].
  intros s. apply search_version_pattern.
Qed.

Lemma no_newline_app (s1 s2 : string) :
  no_newline (s1 +:+ s2) = no_newline s1 && no_newline s2.
Proof.
  induction s1 as [|c s1 IH]; [done|].
  rewrite string_app_cons. cbn [no_newline]. by rewrite IH, andb_assoc.
Qed.

Lemma no_newline_join (l : list string) :
  Forall (λ s, no_newline s = true) l → no_newline (join " " l) = true.
Proof.
  induction l as [|x [|y l] IH]; intros Hl; [done|by inversion Hl|].
  inversion Hl as [|?? Hx Hl']; subst. cbn [join] in *.
  by rewrite !no_newline_app, Hx, IH.
Qed.

(** X9: when the prefix, the flavor, the version, the caller's configure
    options and the gems hold no newline, no command of the plan holds
    one: every command is one line. *)
Theorem commands_single_line (self : options) :
  no_newline (ruby_prefix self) = true →
  no_newline (ruby_flavor self) = true →
  no_newline (ruby_version self) = true →
  Forall (λ s, no_newline s = true) (ruby_configure_options self) →
  Forall (λ s, no_newline s = true) (ruby_gems self) →
  Forall (λ c, no_newline c = true) (get_build_commands self).
Proof.
  intros Hp Hf Hv Hopts Hgems.
  assert (Hj : no_newline (join " " (_configure_opts self)) = true).
  { apply no_newline_join. rewrite _configure_opts_eq.
    repeat (apply Forall_cons; split; [done|]).
    apply Forall_app. split; [done|].
    destruct (ruby_shared self), (ruby_use_jemalloc self);
      by repeat constructor. }
  rewrite get_build_commands_eq. rewrite !Forall_app. split_and!.
  - unfold fixed_commands.
    repeat (apply Forall_cons; split; [|]); try apply Forall_nil_2;
      try reflexivity.
    + by rewrite !no_newline_app, Hp, Hf, Hv, Hj.
    + by rewrite !no_newline_app, Hp.
  - destruct (ruby_use_bundler self); by repeat constructor.
  - destruct (truthy (ruby_gems self)); [|by constructor].
    apply Forall_cons. split; [|by constructor].
    unfold gem_install. rewrite no_newline_app.
    by rewrite (no_newline_join _ Hgems).
Qed.

Lemma commands_single_line_witness :
  Forall (λ c, no_newline c = true) (get_build_commands default_options).
Proof.
  apply commands_single_line; [reflexivity..|apply Forall_nil_2|apply Forall_nil_2].
Defined.
